(** * IHK exam quiz (exam-quiz.py): a shallow embedding and its properties

    The script filters a fixed list of question records by two optional
    command-line criteria, builds one [ExamQuiz] session, asks the selected
    questions on standard input/output and prints a graded result.

    Conventions of the embedding:
    - a Python [str] is a [string] holding its UTF-8 bytes; [==] on [str] is
      equality of such strings and an empty [str] is the only falsy one;
    - a Python [int] is a [Z]; a Python [float] is a binary64 [float];
    - [str.lower], [str.upper] and [str.strip] are methods of the Python
      runtime, not of the script: they are the operations of the class
      [StrMethods], and every general result holds for any implementation
      of them.  [ascii_str] implements them on ASCII text and is used to
      run the model on concrete inputs;
    - standard input, standard output, the random source and the session
      object live in a [World] threaded through a state-and-exception
      monad [M]. *)

From Stdlib Require Import ZArith Floats Uint63 Ascii.
From stdpp Require Import base decidable option list strings sorting.

Open Scope Z_scope.

(** ** Strings of the Python runtime *)

Class StrMethods := {
  str_lower : string → string;
  str_upper : string → string;
  str_strip : string → string
}.

(** [bool(s)] for a [str]: only the empty string is falsy. *)
Definition truthy (s : string) : bool :=
  match s with
  | EmptyString => false
  | String _ _ => true
  end.

Module AsciiStr.

Definition code (c : ascii) : nat := nat_of_ascii c.

Definition lower_char (c : ascii) : ascii :=
  if (65 <=? code c)%nat && (code c <=? 90)%nat
  then ascii_of_nat (code c + 32) else c.

Definition upper_char (c : ascii) : ascii :=
  if (97 <=? code c)%nat && (code c <=? 122)%nat
  then ascii_of_nat (code c - 32) else c.

(** The ASCII characters for which [str.isspace] holds: TAB, LF, VT, FF,
    CR, the separators FS, GS, RS, US, and the space. *)
Definition isspace (c : ascii) : bool :=
  ((9 <=? code c)%nat && (code c <=? 13)%nat)
  || ((28 <=? code c)%nat && (code c <=? 32)%nat).

Fixpoint map_chars (f : ascii → ascii) (s : string) : string :=
  match s with
  | EmptyString => EmptyString
  | String c s' => String (f c) (map_chars f s')
  end.

Fixpoint lstrip (s : string) : string :=
  match s with
  | EmptyString => EmptyString
  | String c s' => if isspace c then lstrip s' else s
  end.

(** [rstrip s] drops the trailing whitespace: a character is kept when it
    is no whitespace or something is kept after it. *)
Fixpoint rstrip (s : string) : string :=
  match s with
  | EmptyString => EmptyString
  | String c s' =>
      match rstrip s' with
      | EmptyString => if isspace c then EmptyString else String c EmptyString
      | r => String c r
      end
  end.

Definition lower : string → string := map_chars lower_char.
Definition upper : string → string := map_chars upper_char.
Definition strip (s : string) : string := rstrip (lstrip s).

End AsciiStr.

(** The three methods on ASCII text, where they are what Python computes.
    Off ASCII they are not: Python also maps and strips characters beyond
    code 127, which these leave alone.  Results stated with [ascii_str]
    are about ASCII text, or hold of Python's methods as well. *)
Definition ascii_str : StrMethods :=
  {| str_lower := AsciiStr.lower;
     str_upper := AsciiStr.upper;
     str_strip := AsciiStr.strip |}.

(** ** Question records *)

Module Question.

(** One element of [QUESTIONS]: a dict with these seven keys.  [options]
    keeps the items of the inner dict in insertion order. *)
Record t := mk {
  id : Z;
  category : string;
  difficulty : string;
  question : string;
  options : list (string * string);
  answer : string;
  explanation : string
}.

#[global] Instance eq_dec : EqDecision t.
Proof. solve_decision. Defined.

End Question.

Definition QUESTIONS : list Question.t :=
  [ Question.mk 1 "VLAN" "easy"
      "Was ist der Hauptzweck von VLANs?"
      [ ("A", "Erhöhung der physischen Bandbreite");
        ("B", "Logische Segmentierung eines Netzwerks");
        ("C", "Verschlüsselung von Datenverkehr");
        ("D", "Automatische IP-Adressvergabe") ]
      "B"
      "VLANs ermöglichen logische Segmentierung.";
    Question.mk 2 "Firewall" "medium"
      "Was bedeutet Default-Deny-Policy?"
      [ ("A", "Alle Verbindungen erlaubt");
        ("B", "Nur HTTPS erlaubt");
        ("C", "Alle Verbindungen blockiert");
        ("D", "Nur lokaler Traffic erlaubt") ]
      "C"
      "Default-Deny = Least-Privilege-Prinzip." ].

(** ** Command-line arguments *)

Module Args.

(** The namespace returned by [parser.parse_args()]: [--count] (an int,
    10 by default), [--category] and [--difficulty] ([None] when the flag
    is absent) and [--random]. *)
Record t := mk {
  count : Z;
  category : option string;
  difficulty : option string;
  random : bool
}.

End Args.

(** ** The dataset filter (lines 118-124 of [main]) *)

Definition filter_questions `{StrMethods} (questions : list Question.t)
    (category difficulty : option string) : list Question.t :=
  let questions :=
    match category with
    | Some c =>
        if truthy c
        then filter (λ q, str_lower (Question.category q) = str_lower c) questions
        else questions
    | None => questions
    end in
  let questions :=
    match difficulty with
    | Some d =>
        if truthy d
        then filter (λ q, Question.difficulty q = d) questions
        else questions
    | None => questions
    end in
  questions.

(** ** The session object and what the script prints *)

Module Self.

(** The attributes [__init__] gives an [ExamQuiz] instance. *)
Record t := mk {
  questions : list Question.t;
  count : Z;
  random_order : bool;
  score : Z;
  total : Z
}.

Definition set_score (v : Z) (self : t) : t :=
  mk (questions self) (count self) (random_order self) v (total self).

Definition set_total (v : Z) (self : t) : t :=
  mk (questions self) (count self) (random_order self) (score self) v.

End Self.

(** The four messages of [show_results], best first. *)
Inductive Verdict := Exzellent | Gut | Bestanden | NichtBestanden.

Inductive PromptText :=
  | AnswerPrompt      (* Deine Antwort (A/B/C/D): *)
  | ContinuePrompt.   (* Druecke Enter fuer naechste Frage... *)

(** One constructor per [print] statement of the script (and one for the
    prompt that [input] writes); a constructor carries the values that the
    statement interpolates into its text. *)
Inductive Output :=
  | Rule                                   (* sixty equals signs *)
  | Title                                  (* the quiz banner, line 56 *)
  | Blank                                  (* print() *)
  | BlankRule                              (* an empty line, then the rule: lines 68 and 94 *)
  | RuleBlank                              (* the rule, then an empty line: line 71 *)
  | QHeader (num count : Z) (difficulty : string)
  | QCategory (category : string)
  | QText (question : string)
  | QOption (key value : string)
  | Prompt (p : PromptText)
  | Richtig
  | Falsch (answer : string)
  | Explanation (explanation : string)
  | ResultTitle                            (* ENDERGEBNIS, line 95 *)
  | ScoreLine (score total : Z)
  | PercentLine (percentage : float)
  | VerdictLine (v : Verdict)
  | NoQuestionsFound.                      (* line 127 *)

(** ** The world and the monad of the script *)

Record World := mkWorld {
  stdin : list string;          (* the lines still to be read *)
  stdout : list Output;         (* what has been printed, oldest first *)
  entropy : nat → nat;          (* the raw values of the random source *)
  draws : nat;                  (* how many of them have been used *)
  session : option Self.t       (* the ExamQuiz instance, once constructed *)
}.

Inductive Exn :=
  | SystemExit (code : Z)
  | ValueError
  | IndexError
  | EOFError
  | ZeroDivisionError
  | NameError.

Inductive Result (A : Type) :=
  | Ok (a : A)
  | Raise (e : Exn).
Arguments Ok {A} a.
Arguments Raise {A} e.

Definition M (A : Type) : Type := World → Result A * World.

#[global] Instance M_ret : MRet M := λ A a w, (Ok a, w).

#[global] Instance M_bind : MBind M := λ A B f c w,
  match c w with
  | (Ok a, w') => f a w'
  | (Raise e, w') => (Raise e, w')
  end.

Definition raise {A} (e : Exn) : M A := λ w, (Raise e, w).

Definition print (o : Output) : M unit := λ w,
  (Ok (), mkWorld (stdin w) (stdout w ++ [o]) (entropy w) (draws w) (session w)).

(** [input(prompt)]: the prompt is written, then one line is read without
    its newline; at end of input [EOFError] is raised. *)
Definition input (p : PromptText) : M string := λ w,
  let out := stdout w ++ [Prompt p] in
  match stdin w with
  | [] => (Raise EOFError, mkWorld [] out (entropy w) (draws w) (session w))
  | l :: ls => (Ok l, mkWorld ls out (entropy w) (draws w) (session w))
  end.

(** A uniform draw from [range(n)]: the next raw value reduced below [n]. *)
Definition randbelow (n : nat) : M nat := λ w,
  (Ok (entropy w (draws w) `mod` n)%nat,
   mkWorld (stdin w) (stdout w) (entropy w) (S (draws w)) (session w)).

Definition get_self : M Self.t := λ w,
  match session w with
  | Some self => (Ok self, w)
  | None => (Raise NameError, w)
  end.

Definition put_self (self : Self.t) : M unit := λ w,
  (Ok (), mkWorld (stdin w) (stdout w) (entropy w) (draws w) (Some self)).

(** [for x in xs: body] *)
Fixpoint for_each {A} (xs : list A) (body : A → M unit) : M unit :=
  match xs with
  | [] => mret ()
  | x :: xs' => body x ;; for_each xs' body
  end.

(** [enumerate(xs, start)] *)
Fixpoint enumerate {A} (xs : list A) (start : Z) : list (Z * A) :=
  match xs with
  | [] => []
  | x :: xs' => (start, x) :: enumerate xs' (start + 1)
  end.

(** [xs[:k]]: a negative [k] counts from the end, and the bound is clamped
    into [0 .. len(xs)]. *)
Definition slice_to {A} (xs : list A) (k : Z) : list A :=
  let n := Z.of_nat (length xs) in
  let stop := if decide (k < 0) then Z.max 0 (k + n) else Z.min k n in
  take (Z.to_nat stop) xs.

(** [random.sample(population, k)] of the Python library, for the
    populations it copies into a pool: [k] times, an index [j] is drawn
    below the number of live pool slots, [pool[j]] is the next result and
    the last live slot is moved into position [j]. *)
Fixpoint sample_loop {A} (pool : list A) (live k : nat) : M (list A) :=
  match k with
  | O => mret []
  | S k' =>
      j ← randbelow live;
      match pool !! j, pool !! (live - 1)%nat with
      | Some x, Some y =>
          rest ← sample_loop (<[j := y]> pool) (live - 1) k';
          mret (x :: rest)
      | _, _ => raise IndexError
      end
  end.

Definition random_sample {A} (population : list A) (k : Z) : M (list A) :=
  let n := length population in
  if decide (0 ≤ k ≤ Z.of_nat n)
  then sample_loop population n (Z.to_nat k)
  else raise ValueError.

(** An [int] as a [float]; exact below 2^53, which is the range in which
    [a / b] on ints is the binary64 quotient of the two conversions. *)
Definition Z_to_float (z : Z) : float :=
  match z with
  | Z0 => 0%float
  | Zpos _ => PrimFloat.of_uint63 (Uint63.of_Z z)
  | Zneg p => (- PrimFloat.of_uint63 (Uint63.of_Z (Zpos p)))%float
  end.

(** [a / b] on ints. *)
Definition truediv (a b : Z) : M float :=
  if decide (b = 0) then raise ZeroDivisionError
  else mret (Z_to_float a / Z_to_float b)%float.

(** [sorted(d.items())]: pairs in ascending order, keys first. *)
Definition item_le (a b : string * string) : bool :=
  String.ltb a.1 b.1 || (String.eqb a.1 b.1 && String.leb a.2 b.2).

Fixpoint insert_item (a : string * string) (l : list (string * string)) :=
  match l with
  | [] => [a]
  | b :: l' => if item_le a b then a :: l else b :: insert_item a l'
  end.

Definition sorted_items (items : list (string * string)) :=
  foldr insert_item [] items.

(** ** class ExamQuiz *)

(** The chain of comparisons that ends [show_results] (lines 100-107). *)
Definition verdict (percentage : float) : Verdict :=
  if PrimFloat.leb 90 percentage then Exzellent
  else if PrimFloat.leb 70 percentage then Gut
  else if PrimFloat.leb 50 percentage then Bestanden
  else NichtBestanden.

Module ExamQuiz.
Section methods.
Context `{StrMethods}.

Definition __init__ (questions : list Question.t) (count : Z)
    (random_order : bool) : M unit :=
  put_self
    {| Self.questions := questions;
       Self.count := Z.min count (Z.of_nat (length questions));
       Self.random_order := random_order;
       Self.score := 0;
       Self.total := 0 |}.

Definition ask_question (num : Z) (question : Question.t) : M unit :=
  self ← get_self;
  print BlankRule ;;
  print (QHeader num (Self.count self)
           (str_upper (Question.difficulty question))) ;;
  print (QCategory (Question.category question)) ;;
  print RuleBlank ;;
  print (QText (Question.question question)) ;;
  print Blank ;;
  for_each (sorted_items (Question.options question))
    (λ item, print (QOption item.1 item.2)) ;;
  print Blank ;;
  line ← input AnswerPrompt;
  let answer := str_upper (str_strip line) in
  self ← get_self;
  put_self (Self.set_total (Self.total self + 1) self) ;;
  (if decide (answer = Question.answer question)
   then
     self ← get_self;
     put_self (Self.set_score (Self.score self + 1) self) ;;
     print Richtig
   else
     print (Falsch (Question.answer question))) ;;
  print (Explanation (Question.explanation question)) ;;
  input ContinuePrompt ;;
  mret ().

Definition show_results : M unit :=
  self ← get_self;
  percentage ←
    (if decide (Self.total self > 0)
     then
       quotient ← truediv (Self.score self) (Self.total self);
       mret (quotient * 100)%float
     else mret 0%float);
  print BlankRule ;;
  print ResultTitle ;;
  print Rule ;;
  print (ScoreLine (Self.score self) (Self.total self)) ;;
  print (PercentLine percentage) ;;
  print (VerdictLine (verdict percentage)).

(** The selection made on line 60. *)
Definition select (self : Self.t) : M (list Question.t) :=
  if Self.random_order self
  then random_sample (Self.questions self) (Self.count self)
  else mret (slice_to (Self.questions self) (Self.count self)).

Definition run : M unit :=
  print Rule ;;
  print Title ;;
  print Rule ;;
  print Blank ;;
  self ← get_self;
  selected ← select self;
  for_each (enumerate selected 1) (λ iq, ask_question iq.1 iq.2) ;;
  show_results.

End methods.
End ExamQuiz.

(** ** main *)

(** [main] over a given dataset; the script runs it on [QUESTIONS]. *)
Definition main_on `{StrMethods} (dataset : list Question.t)
    (args : Args.t) : M unit :=
  let questions :=
    filter_questions dataset (Args.category args) (Args.difficulty args) in
  match questions with
  | [] =>
      print NoQuestionsFound ;;
      raise (SystemExit 1)
  | _ :: _ =>
      ExamQuiz.__init__ questions (Args.count args) (Args.random args) ;;
      ExamQuiz.run
  end.

Definition main `{StrMethods} : Args.t → M unit := main_on QUESTIONS.

(** The exit status of the interpreter: 0 when [main] returns, the code of
    [sys.exit], and 1 after any other uncaught exception. *)
Definition exit_status (r : Result unit) : Z :=
  match r with
  | Ok _ => 0
  | Raise (SystemExit code) => code
  | Raise _ => 1
  end.

(** A world before the script starts: nothing printed, no random value
    drawn and no session. *)
Definition initial_world (lines : list string) (rnd : nat → nat) : World :=
  mkWorld lines [] rnd 0 None.

(** ** Notions used to state the properties *)

(** What the specification asks of a record under the two criteria.  In
    [meets_given] every criterion that is present constrains the record; in
    [meets_nonempty] a criterion constrains it only when it is present and
    not the empty string. *)
Definition meets_given `{StrMethods} (category difficulty : option string)
    (q : Question.t) : Prop :=
  (∀ c, category = Some c → str_lower (Question.category q) = str_lower c) ∧
  (∀ d, difficulty = Some d → Question.difficulty q = d).

Definition meets_nonempty `{StrMethods} (category difficulty : option string)
    (q : Question.t) : Prop :=
  (∀ c, category = Some c → c ≠ EmptyString →
        str_lower (Question.category q) = str_lower c) ∧
  (∀ d, difficulty = Some d → d ≠ EmptyString → Question.difficulty q = d).

#[global] Instance criterion_dec (criterion : option string)
    (P : string → Prop) `{∀ s, Decision (P s)} :
  Decision (∀ s, criterion = Some s → s ≠ EmptyString → P s).
Proof.
  destruct criterion as [s|]; [|left; intros ? [=]].
  destruct (decide (s = EmptyString)) as [->|Hs].
  - left. intros ? [= <-] ?. congruence.
  - destruct (decide (P s)) as [Hp|Hp].
    + left. by intros ? [= <-] _.
    + right. intros Hall. apply Hp. by apply Hall.
Defined.

#[global] Instance meets_nonempty_dec `{StrMethods} category difficulty q :
  Decision (meets_nonempty category difficulty q).
Proof. unfold meets_nonempty. apply _. Defined.

(** The texts of the questions shown in a transcript, in order: one
    [QText] is printed each time a question is asked. *)
Definition asked (out : list Output) : list string :=
  omap (λ o, match o with QText text => Some text | _ => None end) out.

(** The input line as [ask_question] compares it. *)
Definition normalize `{StrMethods} (line : string) : string :=
  str_upper (str_strip line).

(** The session after one answered question. *)
Definition mark `{StrMethods} (question : Question.t) (line : string)
    (self : Self.t) : Self.t :=
  let self := Self.set_total (Self.total self + 1) self in
  if decide (normalize line = Question.answer question)
  then Self.set_score (Self.score self + 1) self
  else self.

(** What one answered question adds to the transcript. *)
Definition transcript `{StrMethods} (self : Self.t) (num : Z)
    (question : Question.t) (line : string) : list Output :=
  [ BlankRule;
    QHeader num (Self.count self) (str_upper (Question.difficulty question));
    QCategory (Question.category question);
    RuleBlank;
    QText (Question.question question);
    Blank ]
  ++ map (λ item, QOption item.1 item.2)
       (sorted_items (Question.options question))
  ++ [ Blank; Prompt AnswerPrompt;
       if decide (normalize line = Question.answer question)
       then Richtig else Falsch (Question.answer question);
       Explanation (Question.explanation question);
       Prompt ContinuePrompt ].

(** The percentage of the specification. *)
Definition percentage_of (score total : Z) : float :=
  if decide (total = 0) then 0%float
  else (Z_to_float score / Z_to_float total * 100)%float.

(** [a <= b] on floats, as the comparison operator decides it. *)
Definition fle (a b : float) : Prop := PrimFloat.leb a b = true.

(** The invariant of the two counters. *)
Definition counters_ok (self : Self.t) : Prop :=
  0 ≤ Self.score self ≤ Self.total self.

(** What [run] prints before the first question. *)
Definition banner : list Output := [Rule; Title; Rule; Blank].

(** What [show_results] prints for a session. *)
Definition report (self : Self.t) : list Output :=
  let percentage :=
    if decide (Self.total self > 0)
    then (Z_to_float (Self.score self) / Z_to_float (Self.total self) * 100)%float
    else 0%float in
  [ BlankRule; ResultTitle; Rule;
    ScoreLine (Self.score self) (Self.total self);
    PercentLine percentage;
    VerdictLine (verdict percentage) ].

(** The session that [__init__] constructs. *)
Definition fresh (questions : list Question.t) (count : Z)
    (random_order : bool) : Self.t :=
  Self.mk questions (Z.min count (Z.of_nat (length questions))) random_order
    0 0.

(** The double nearest to 49.9. *)
Definition f49_9 : float := 0x1.8f33333333333p+5%float.

#[global] Instance Verdict_eq_dec : EqDecision Verdict.
Proof. solve_decision. Defined.

(** The tier of the specification, decided on the exact quotient: the
    percentage [100 * score / total] against 90, 70 and 50, and 0 percent
    when [total] is 0. *)
Definition exact_verdict (score total : Z) : Verdict :=
  if decide (total = 0) then NichtBestanden
  else if decide (90 * total ≤ 100 * score) then Exzellent
  else if decide (70 * total ≤ 100 * score) then Gut
  else if decide (50 * total ≤ 100 * score) then Bestanden
  else NichtBestanden.

(** ** Notions used to describe whole sessions *)

(** What [ask_question] prints up to and including the answer prompt. *)
Definition asking `{StrMethods} (self : Self.t) (num : Z)
    (question : Question.t) : list Output :=
  [ BlankRule;
    QHeader num (Self.count self) (str_upper (Question.difficulty question));
    QCategory (Question.category question);
    RuleBlank;
    QText (Question.question question);
    Blank ]
  ++ map (λ item, QOption item.1 item.2)
       (sorted_items (Question.options question))
  ++ [ Blank; Prompt AnswerPrompt ].

(** What it prints once the answer line has been read. *)
Definition feedback `{StrMethods} (question : Question.t) (line : string)
    : list Output :=
  [ if decide (normalize line = Question.answer question)
    then Richtig else Falsch (Question.answer question);
    Explanation (Question.explanation question);
    Prompt ContinuePrompt ].

(** The transcript of the loop of [run] over the selected questions on the
    given input lines: each question takes an answer line and an
    acknowledgement line, and the loop stops where the input ends. *)
Fixpoint played `{StrMethods} (self : Self.t) (num : Z)
    (selected : list Question.t) (lines : list string) : list Output :=
  match selected with
  | [] => []
  | q :: selected' =>
      match lines with
      | [] => asking self num q
      | [line] => asking self num q ++ feedback q line
      | line :: _ :: lines' =>
          asking self num q ++ feedback q line
          ++ played (mark q line self) (num + 1) selected' lines'
      end
  end.

(** The session after that loop. *)
Fixpoint marks `{StrMethods} (selected : list Question.t)
    (lines : list string) (self : Self.t) : Self.t :=
  match selected with
  | [] => self
  | q :: selected' =>
      match lines with
      | [] => self
      | [line] => mark q line self
      | line :: _ :: lines' => marks selected' lines' (mark q line self)
      end
  end.

(** The number of selected questions whose answer line, once normalized,
    is the answer key. *)
Fixpoint right_answers `{StrMethods} (selected : list Question.t)
    (lines : list string) : Z :=
  match selected with
  | [] => 0
  | q :: selected' =>
      match lines with
      | [] => 0
      | line :: lines' =>
          (if decide (normalize line = Question.answer q) then 1 else 0)
          + right_answers selected' (tail lines')
      end
  end.

(** Standard input made of one answer and one acknowledgement per
    question. *)
Definition lines_of (pairs : list (string * string)) : list string :=
  flat_map (λ p, [p.1; p.2]) pairs.

(** The option lines of a transcript, in order. *)
Definition shown_options (out : list Output) : list (string * string) :=
  omap (λ o, match o with QOption k v => Some (k, v) | _ => None end) out.

(** The numbering of the question headers of a transcript, in order. *)
Definition headers (out : list Output) : list (Z * Z) :=
  omap (λ o, match o with QHeader num count _ => Some (num, count) | _ => None end)
    out.

(** Whether a transcript holds a part of the final report. *)
Definition reports (o : Output) : bool :=
  match o with
  | ResultTitle | ScoreLine _ _ | PercentLine _ | VerdictLine _ => true
  | _ => false
  end.

(** The verdicts from the failing one up. *)
Definition rank (v : Verdict) : Z :=
  match v with
  | NichtBestanden => 0
  | Bestanden => 1
  | Gut => 2
  | Exzellent => 3
  end.

(** A character of a line that [input] can return on ASCII text: an ASCII
    character that ends no line (no LF, no CR). *)
Definition typable_char (c : ascii) : bool :=
  (AsciiStr.code c <? 128)%nat
  && negb (AsciiStr.code c =? 10)%nat
  && negb (AsciiStr.code c =? 13)%nat.

Fixpoint typable (s : string) : Prop :=
  match s with
  | EmptyString => True
  | String c s' => typable_char c = true ∧ typable s'
  end.

(** * Properties *)

(** ** The dataset filter *)

Section filter_facts.
Context `{StrMethods}.

Lemma truthy_true (s : string) : truthy s = true ↔ s ≠ EmptyString.
Proof. destruct s; simpl; split; congruence. Qed.

Lemma truthy_false (s : string) : truthy s = false ↔ s = EmptyString.
Proof. destruct s; simpl; split; congruence. Qed.

(** The two comprehensions of [main] amount to one pass that keeps the
    records meeting every non-empty criterion. *)
Lemma filter_questions_spec questions category difficulty :
  filter_questions questions category difficulty
  = filter (meets_nonempty category difficulty) questions.
Proof.
  unfold filter_questions.
  assert (Hid : ∀ (P : Question.t → Prop) `{∀ q, Decision (P q)}
                  (l : list Question.t),
             (∀ q, P q) → filter P l = l).
  { intros P HP l Hall. induction l as [|q l IH]; [done|].
    rewrite filter_cons, decide_True by done. by rewrite IH. }
  destruct category as [c|], difficulty as [d|];
    try destruct (truthy c) eqn:Hc; try destruct (truthy d) eqn:Hd;
    rewrite ?truthy_true, ?truthy_false in *; subst;
    rewrite ?list_filter_filter;
    first [ apply list_filter_iff | symmetry; apply Hid ];
    intros q; unfold meets_nonempty; try split;
    try (intros [H1 H2]); try split; intros; simplify_eq; eauto;
    try done.
Qed.

End filter_facts.

(** C1, as stated, at the category criterion given as the empty string:
    [--category ""] is a supplied criterion, yet the first record of
    [QUESTIONS] (category VLAN) is in the filtered list without matching
    it. *)
Lemma C1_empty_category_counterexample :
  ∃ q, q ∈ @filter_questions ascii_str QUESTIONS (Some "") None
       ∧ ¬ @meets_given ascii_str (Some "") None q.
Proof.
  eexists. split.
  - apply list_elem_of_here.
  - intros [Hcat _]. specialize (Hcat _ eq_refl). discriminate Hcat.
Qed.

(** C1 (amended): for every optional category and difficulty criterion,
    the filtered list is the ordered subsequence of the original list that
    contains exactly the records satisfying every criterion that is
    supplied and not the empty string (category compared through
    [str.lower], difficulty compared exactly); a criterion that is omitted
    or empty imposes no constraint, and the original order is kept.  When
    no criterion is the empty string this is the condition of every
    supplied criterion. *)
Theorem C1_filter_is_ordered_subsequence `{StrMethods}
    (questions : list Question.t) (category difficulty : option string) :
  let filtered := filter_questions questions category difficulty in
  filtered = filter (meets_nonempty category difficulty) questions
  ∧ filtered `sublist_of` questions
  ∧ (∀ q, q ∈ filtered ↔ q ∈ questions ∧ meets_nonempty category difficulty q)
  ∧ (category ≠ Some "" → difficulty ≠ Some "" →
     ∀ q, meets_nonempty category difficulty q ↔ meets_given category difficulty q).
Proof.
  simpl. rewrite filter_questions_spec. split_and!.
  - done.
  - apply sublist_filter.
  - intros q. rewrite list_elem_of_filter. tauto.
  - intros Hc Hd q. unfold meets_nonempty, meets_given.
    split; intros [H1 H2]; split; intros s Hs; try intros _.
    + apply H1; [done|]. intros ->. congruence.
    + apply H2; [done|]. intros ->. congruence.
    + by apply H1.
    + by apply H2.
Qed.

(** C10: an empty category criterion imposes no constraint.  The filter
    treats it exactly like an omitted category, so that with no difficulty
    criterion the whole list passes; on [QUESTIONS] the result is the full
    list, whereas comparing the empty string with the stored categories
    would keep nothing. *)
Theorem C10_empty_category_is_no_criterion `{StrMethods}
    (questions : list Question.t) (difficulty : option string) :
  filter_questions questions (Some "") difficulty
  = filter_questions questions None difficulty
  ∧ filter_questions questions (Some "") None = questions
  ∧ @filter_questions ascii_str QUESTIONS (Some "") None = QUESTIONS
  ∧ filter (λ q, AsciiStr.lower (Question.category q) = AsciiStr.lower "")
      QUESTIONS = [].
Proof. by split_and!. Qed.

(** ** One question *)

Lemma print_eq (o : Output) (w : World) :
  print o w
  = (Ok (), mkWorld (stdin w) (stdout w ++ [o]) (entropy w) (draws w)
              (session w)).
Proof. reflexivity. Qed.

Lemma for_each_print {A} (f : A → Output) (xs : list A) (w : World) :
  for_each xs (λ x, print (f x)) w
  = (Ok (), mkWorld (stdin w) (stdout w ++ map f xs) (entropy w) (draws w)
              (session w)).
Proof.
  revert w. induction xs as [|x xs IH]; intros [i o e d s]; simpl.
  - unfold mret, M_ret. simpl. by rewrite app_nil_r.
  - unfold mbind, M_bind. rewrite print_eq, IH. simpl.
    by rewrite <- app_assoc.
Qed.

#[local] Arguments print : simpl never.

(** Runs a computation of [M] on the world of the goal, as far as the
    prints and the reads of the session go. *)
Ltac run_monad :=
  unfold mbind, M_bind, mret, M_ret, raise, get_self, put_self, input;
  simpl;
  repeat (first [rewrite for_each_print | rewrite print_eq]; simpl).

Ltac unfold_elem :=
  repeat first [rewrite elem_of_cons | rewrite elem_of_app
               | rewrite elem_of_nil].

Section one_question.
Context `{StrMethods}.

(** With the answer and the acknowledgement on standard input, the
    question is asked, marked and acknowledged. *)
Lemma ask_question_answered num q self line ack rest out rnd d :
  ExamQuiz.ask_question num q
    (mkWorld (line :: ack :: rest) out rnd d (Some self))
  = (Ok (), mkWorld rest (out ++ transcript self num q line) rnd d
              (Some (mark q line self))).
Proof.
  unfold ExamQuiz.ask_question, transcript, mark, normalize.
  run_monad.
  destruct (decide _); run_monad; rewrite <- !app_assoc; reflexivity.
Qed.

(** The session after [ask_question], whatever standard input holds:
    untouched when no answer can be read, marked otherwise. *)
Lemma ask_question_session num q (w : World) self :
  session w = Some self →
  session (ExamQuiz.ask_question num q w).2
  = Some (match stdin w with
          | [] => self
          | line :: _ => mark q line self
          end).
Proof.
  destruct w as [i o e d s]. simpl. intros ->.
  unfold ExamQuiz.ask_question, mark, normalize.
  run_monad.
  destruct i as [|line [|ack rest]]; run_monad; [done| |];
    destruct (decide _); run_monad; reflexivity.
Qed.

Lemma ask_question_returns num q (w : World) self :
  session w = Some self →
  (ExamQuiz.ask_question num q w).1 = Ok () ↔ (2 ≤ length (stdin w))%nat.
Proof.
  destruct w as [i o e d s]. simpl. intros ->.
  unfold ExamQuiz.ask_question.
  run_monad.
  destruct i as [|line [|ack rest]]; run_monad;
    try destruct (decide _); run_monad; split; intros; try done; lia.
Qed.

Lemma mark_counters q line self :
  Self.total (mark q line self) = Self.total self + 1
  ∧ Self.score self ≤ Self.score (mark q line self) ≤ Self.score self + 1
  ∧ (Self.score (mark q line self) = Self.score self + 1
     ↔ normalize line = Question.answer q)
  ∧ Self.questions (mark q line self) = Self.questions self
  ∧ Self.count (mark q line self) = Self.count self
  ∧ Self.random_order (mark q line self) = Self.random_order self.
Proof.
  unfold mark. destruct (decide _); simpl; split_and!; try done; try lia.
  split; [lia | done].
Qed.

Lemma mark_counters_ok q line self :
  counters_ok self → counters_ok (mark q line self).
Proof.
  unfold counters_ok. pose proof (mark_counters q line self). lia.
Qed.

End one_question.

(** ** Upper-casing and trimming on ASCII text *)

Module AsciiFacts.
Import AsciiStr.

Lemma upper_lower_char c : upper_char (lower_char c) = upper_char c.
Proof. by destruct c as [[] [] [] [] [] [] [] []]. Qed.

Lemma isspace_upper_char c : isspace (upper_char c) = isspace c.
Proof. by destruct c as [[] [] [] [] [] [] [] []]. Qed.

Lemma upper_lower s : upper (lower s) = upper s.
Proof.
  unfold upper, lower. induction s as [|c s IH]; cbn [map_chars]; [done|].
  by rewrite upper_lower_char, IH.
Qed.

Lemma upper_lstrip s : upper (lstrip s) = lstrip (upper s).
Proof.
  unfold upper. induction s as [|c s IH]; cbn [map_chars lstrip]; [done|].
  rewrite isspace_upper_char. by destruct (isspace c).
Qed.

Lemma upper_rstrip s : upper (rstrip s) = rstrip (upper s).
Proof.
  unfold upper. induction s as [|c s IH]; cbn [map_chars rstrip]; [done|].
  rewrite <- IH, isspace_upper_char.
  destruct (rstrip s); cbn [map_chars]; [by destruct (isspace c) | done].
Qed.

Lemma upper_strip s : upper (strip s) = strip (upper s).
Proof. unfold strip. by rewrite upper_rstrip, upper_lstrip. Qed.

(** Lines that differ in the case of their letters only are compared
    alike. *)
Lemma normalize_case line1 line2 :
  lower line1 = lower line2 →
  @normalize ascii_str line1 = @normalize ascii_str line2.
Proof.
  intros Hl. unfold normalize. simpl. rewrite !upper_strip.
  by rewrite <- (upper_lower line1), Hl, upper_lower.
Qed.

End AsciiFacts.

(** C2: the line read for a question is trimmed and upper-cased and then
    compared with the answer key of the record.  Whatever the line is, the
    question completes without an exception and [total] grows by one; the
    score grows by one exactly when the normalized line equals the answer
    key, and any other line (a key outside the options included) is
    reported as wrong and leaves the score as it is.  On ASCII text the
    comparison does not depend on the case of the letters typed. *)
Theorem C2_answer_is_normalized_and_compared `{StrMethods}
    (num : Z) (q : Question.t) (self : Self.t) (line ack : string)
    (rest : list string) (out : list Output) (rnd : nat → nat) (d : nat) :
  (∃ added self',
      ExamQuiz.ask_question num q
        (mkWorld (line :: ack :: rest) out rnd d (Some self))
      = (Ok (), mkWorld rest (out ++ added) rnd d (Some self'))
      ∧ Self.total self' = Self.total self + 1
      ∧ (str_upper (str_strip line) = Question.answer q →
         Self.score self' = Self.score self + 1 ∧ Richtig ∈ added)
      ∧ (str_upper (str_strip line) ≠ Question.answer q →
         Self.score self' = Self.score self
         ∧ Falsch (Question.answer q) ∈ added ∧ Richtig ∉ added))
  ∧ (∀ line1 line2, AsciiStr.lower line1 = AsciiStr.lower line2 →
       @mark ascii_str q line1 self = @mark ascii_str q line2 self)
  ∧ @normalize ascii_str "b" = "B"
  ∧ @normalize ascii_str "  B " = "B".
Proof.
  split_and!; [| |done..].
  - exists (transcript self num q line), (mark q line self).
    rewrite ask_question_answered. split; [done|].
    unfold mark, transcript, normalize.
    destruct (decide _) as [Heq|Hne]; simpl; split_and!; try done.
    + intros _. split; [lia|]. unfold_elem. tauto.
    + intros _. split_and!; [done| |]; unfold_elem; [tauto|].
      rewrite list_elem_of_fmap. intros Hin.
      decompose [or ex and] Hin; done.
  - intros line1 line2 Hl. unfold mark.
    by rewrite (AsciiFacts.normalize_case line1 line2 Hl).
Qed.

(** ** Sampling without replacement *)

Section sampling.
Context {A : Type}.
Implicit Types (pool sel : list A) (x y : A).

(** One step of the pool: the drawn element together with the live slots
    that remain are the live slots of before, rearranged. *)
Lemma pool_step pool (live j : nat) x y :
  (j < live)%nat →
  pool !! j = Some x →
  pool !! (live - 1)%nat = Some y →
  x :: take (live - 1) (<[j := y]> pool) ≡ₚ take live pool.
Proof.
  intros Hj Hx Hy. destruct live as [|m]; [lia|].
  replace (S m - 1)%nat with m in * by lia.
  rewrite (take_S_r pool m y Hy).
  destruct (decide (j = m)) as [->|Hne].
  - rewrite take_insert_ge by lia. simplify_eq.
    apply Permutation_cons_append.
  - rewrite take_insert_lt by lia.
    assert (Hl : take m pool !! j = Some x)
      by (rewrite lookup_take_lt by lia; done).
    rewrite insert_take_drop
      by (apply lookup_lt_is_Some; rewrite Hl; eauto).
    rewrite <- (take_drop_middle _ _ _ Hl) at 3.
    rewrite <- !Permutation_middle, app_nil_r.
    apply Permutation_swap.
Qed.

(** The loop of [random.sample] draws [k] elements out of the live part
    of the pool, each slot at most once, and uses [k] random values. *)
Lemma sample_loop_spec (k : nat) :
  ∀ pool (live : nat) (w : World),
    (k ≤ live ≤ length pool)%nat →
    ∃ sel,
      sample_loop pool live k w
      = (Ok sel, mkWorld (stdin w) (stdout w) (entropy w) (draws w + k)
                   (session w))
      ∧ length sel = k
      ∧ sel ⊆+ take live pool.
Proof.
  induction k as [|k IH]; intros pool live [i o e d s] Hk; simpl.
  - exists []. unfold mret, M_ret.
    rewrite Nat.add_0_r.
    split_and!; [done | done | apply submseteq_nil_l].
  - unfold mbind, M_bind, randbelow. simpl.
    set (j := (e d `mod` live)%nat).
    assert (Hj : (j < live)%nat) by (apply Nat.mod_upper_bound; lia).
    destruct (lookup_lt_is_Some_2 pool j) as [x Hx]; [lia|].
    destruct (lookup_lt_is_Some_2 pool (live - 1)) as [y Hy]; [lia|].
    rewrite Hx, Hy.
    destruct (IH (<[j := y]> pool) (live - 1)%nat
                (mkWorld i o e (S d) s)) as (rest & Hrun & Hlen & Hsub).
    { rewrite length_insert. lia. }
    rewrite Hrun. simpl. exists (x :: rest).
    split_and!; [repeat f_equal; lia | by rewrite <- Hlen |].
    rewrite <- (pool_step pool live j x y Hj Hx Hy).
    by apply submseteq_skip.
Qed.

Lemma submseteq_NoDup sel pool : sel ⊆+ pool → NoDup pool → NoDup sel.
Proof.
  intros (l & Hsub & Hperm)%submseteq_sublist_l Hnd.
  apply (sublist_NoDup _ l); [by rewrite Hperm | done].
Qed.

(** [random.sample]: for [0 <= k <= len(population)] the result is [k]
    elements taken from distinct positions of the population; otherwise
    [ValueError] is raised and nothing is drawn. *)
Lemma random_sample_spec (population : list A) (k : Z) (w : World) :
  (0 ≤ k ≤ Z.of_nat (length population) →
   ∃ sel,
     random_sample population k w
     = (Ok sel, mkWorld (stdin w) (stdout w) (entropy w)
                  (draws w + Z.to_nat k) (session w))
     ∧ Z.of_nat (length sel) = k
     ∧ sel ⊆+ population)
  ∧ (¬ (0 ≤ k ≤ Z.of_nat (length population)) →
     random_sample population k w = (Raise ValueError, w)).
Proof.
  unfold random_sample. split; intros Hk.
  - rewrite decide_True by done.
    destruct (sample_loop_spec (Z.to_nat k) population (length population) w)
      as (sel & Hrun & Hlen & Hsub); [lia|].
    exists sel. split_and!; [done | lia |].
    by rewrite firstn_all in Hsub.
  - by rewrite decide_False.
Qed.

End sampling.

(** ** A whole session *)

Lemma for_each_cons {A} (x : A) (xs : list A) (body : A → M unit) (w : World) :
  for_each (x :: xs) body w
  = match body x w with
    | (Ok _, w') => for_each xs body w'
    | (Raise e, w') => (Raise e, w')
    end.
Proof. reflexivity. Qed.

Lemma asked_options {B} (f : B → string * string) (xs : list B) :
  asked (map (λ x, QOption (f x).1 (f x).2) xs) = [].
Proof. induction xs as [|x xs IH]; [done|]. simpl. apply IH. Qed.

Lemma show_results_spec (self : Self.t) i o e d :
  ExamQuiz.show_results (mkWorld i o e d (Some self))
  = (Ok (), mkWorld i (o ++ report self) e d (Some self)).
Proof.
  unfold ExamQuiz.show_results, report, truediv. run_monad.
  destruct (decide (Self.total self > 0)) as [Hpos|Hnpos].
  - rewrite decide_False by lia. run_monad.
    by rewrite <- !app_assoc.
  - run_monad. by rewrite <- !app_assoc.
Qed.

Section session.
Context `{StrMethods}.

Lemma asked_transcript self num q line :
  asked (transcript self num q line) = [Question.question q].
Proof.
  unfold transcript, asked. rewrite !omap_app.
  change (omap _ (map _ ?l))
    with (asked (map (λ x : string * string, QOption (id x).1 (id x).2) l)).
  rewrite asked_options. simpl. by destruct (decide _).
Qed.

(** The loop of [run] when standard input holds two lines for every
    selected question: every question is asked, in order. *)
Lemma ask_all_answered (selected : list Question.t) :
  ∀ (start : Z) (self : Self.t) lines out rnd d,
    (2 * length selected ≤ length lines)%nat →
    ∃ added self',
      for_each (enumerate selected start)
        (λ iq, ExamQuiz.ask_question iq.1 iq.2)
        (mkWorld lines out rnd d (Some self))
      = (Ok (), mkWorld (drop (2 * length selected) lines) (out ++ added)
                  rnd d (Some self'))
      ∧ asked added = map Question.question selected
      ∧ Self.total self' = Self.total self + Z.of_nat (length selected)
      ∧ Self.score self ≤ Self.score self'
        ≤ Self.score self + Z.of_nat (length selected)
      ∧ Self.questions self' = Self.questions self
      ∧ Self.count self' = Self.count self
      ∧ Self.random_order self' = Self.random_order self.
Proof.
  induction selected as [|q selected IH];
    intros start self lines out rnd d Hlen.
  - exists [], self. simpl. unfold mret, M_ret.
    rewrite app_nil_r, drop_0. split_and!; try done; lia.
  - destruct lines as [|line [|ack rest]]; simpl in Hlen; try lia.
    cbn [enumerate]. rewrite for_each_cons. cbn [fst snd].
    rewrite ask_question_answered.
    destruct (IH (start + 1) (mark q line self) rest
                (out ++ transcript self start q line) rnd d)
      as (added & self' & Hrun & Hasked & Htotal & Hscore & Hq & Hc & Hr);
      [lia|].
    pose proof (mark_counters q line self) as (Mt & Ms & _ & Mq & Mc & Mr).
    exists (transcript self start q line ++ added), self'.
    rewrite Hrun, app_assoc. split_and!.
    + do 2 f_equal.
      replace (2 * length (q :: selected))%nat
        with (S (S (2 * length selected))) by (simpl; lia).
      done.
    + unfold asked in *. rewrite omap_app.
      fold (asked (transcript self start q line)).
      by rewrite asked_transcript, Hasked.
    + rewrite Htotal, Mt. simpl length. lia.
    + simpl length. lia.
    + simpl length. lia.
    + congruence.
    + congruence.
    + congruence.
Qed.

(** The loop of [run] on any standard input, whether it ends normally or
    with an exception: the counters only grow, the score never by more
    than the total, and nothing else of the session changes. *)
Lemma ask_all_counters (selected : list (Z * Question.t)) :
  ∀ (w : World) (self : Self.t),
    session w = Some self →
    ∃ self',
      session (for_each selected
                 (λ iq, ExamQuiz.ask_question iq.1 iq.2) w).2 = Some self'
      ∧ Self.total self ≤ Self.total self'
        ≤ Self.total self + Z.of_nat (length selected)
      ∧ Self.score self ≤ Self.score self'
      ∧ Self.score self' - Self.score self
        ≤ Self.total self' - Self.total self
      ∧ Self.questions self' = Self.questions self
      ∧ Self.count self' = Self.count self
      ∧ Self.random_order self' = Self.random_order self.
Proof.
  induction selected as [|[num q] selected IH]; intros w self Hs.
  - exists self. simpl. split_and!; try done; lia.
  - rewrite for_each_cons. cbn [fst snd].
    pose proof (ask_question_session num q w self Hs) as Hstep.
    destruct (ExamQuiz.ask_question num q w) as [[[]|e] w1]; simpl in Hstep.
    + destruct (IH w1 _ Hstep)
        as (self' & Hrun & Htotal & Hscore & Hdiff & Hq & Hc & Hr).
      exists self'. rewrite Hrun.
      destruct (stdin w) as [|line ?].
      * simpl length. split_and!; try done; lia.
      * pose proof (mark_counters q line self)
          as (Mt & Ms & _ & Mq & Mc & Mr).
        simpl length. split_and!; try congruence; lia.
    + eexists. split; [exact Hstep|].
      destruct (stdin w) as [|line ?].
      * simpl length. split_and!; try done; lia.
      * pose proof (mark_counters q line self)
          as (Mt & Ms & _ & Mq & Mc & Mr).
        simpl length. split_and!; try congruence; lia.
Qed.

End session.

(** ** The selection *)

Lemma slice_to_nonneg {A} (xs : list A) (k : Z) :
  0 ≤ k → slice_to xs k = take (Z.to_nat k) xs.
Proof.
  intros Hk. unfold slice_to. rewrite decide_False by lia.
  destruct (decide (k ≤ Z.of_nat (length xs))).
  - by rewrite Z.min_l by lia.
  - rewrite Z.min_r, Nat2Z.id, firstn_all by lia.
    symmetry. apply take_ge. lia.
Qed.

Lemma select_sequential (self : Self.t) (w : World) :
  Self.random_order self = false →
  ExamQuiz.select self w
  = (Ok (slice_to (Self.questions self) (Self.count self)), w).
Proof. unfold ExamQuiz.select. by intros ->. Qed.

Lemma select_random (self : Self.t) (w : World) :
  Self.random_order self = true →
  ExamQuiz.select self w
  = random_sample (Self.questions self) (Self.count self) w.
Proof. unfold ExamQuiz.select. by intros ->. Qed.

(** The selection reads and writes nothing but the random source. *)
Lemma select_frame (self : Self.t) (w : World) :
  ∃ r d',
    ExamQuiz.select self w
    = (r, mkWorld (stdin w) (stdout w) (entropy w) d' (session w)).
Proof.
  destruct (Self.random_order self) eqn:Hr.
  - rewrite select_random by done.
    destruct (random_sample_spec (Self.questions self) (Self.count self) w)
      as [Hin Hout].
    destruct (decide (0 ≤ Self.count self
                      ≤ Z.of_nat (length (Self.questions self)))) as [Hk|Hk].
    + destruct (Hin Hk) as (sel & -> & _). eauto.
    + rewrite (Hout Hk). destruct w. eauto.
  - rewrite select_sequential by done. destruct w. eauto.
Qed.

(** For a count within [0 .. len(questions)], either mode selects that
    many records of the list, none of them from the same position twice. *)
Lemma select_ok (self : Self.t) (w : World) :
  0 ≤ Self.count self ≤ Z.of_nat (length (Self.questions self)) →
  ∃ selected d',
    ExamQuiz.select self w
    = (Ok selected, mkWorld (stdin w) (stdout w) (entropy w) d' (session w))
    ∧ Z.of_nat (length selected) = Self.count self
    ∧ selected ⊆+ Self.questions self.
Proof.
  intros Hk. destruct (Self.random_order self) eqn:Hr.
  - rewrite select_random by done.
    destruct (random_sample_spec (Self.questions self) (Self.count self) w)
      as [Hin _].
    destruct (Hin Hk) as (sel & -> & Hlen & Hsub). eauto.
  - rewrite select_sequential, slice_to_nonneg by (done || lia).
    exists (take (Z.to_nat (Self.count self)) (Self.questions self)), (draws w).
    destruct w. simpl. split_and!; [done| |apply submseteq_take].
    rewrite length_take. lia.
Qed.

(** ** run and main *)

Section whole_run.
Context `{StrMethods}.

(** [run] with a count within [0 .. len(questions)] and two input lines
    for every question to ask. *)
Lemma run_answered (self : Self.t) lines out rnd d :
  0 ≤ Self.count self ≤ Z.of_nat (length (Self.questions self)) →
  (2 * Z.to_nat (Self.count self) ≤ length lines)%nat →
  ∃ selected added self' d',
    ExamQuiz.select self (mkWorld lines (out ++ banner) rnd d (Some self))
    = (Ok selected, mkWorld lines (out ++ banner) rnd d' (Some self))
    ∧ ExamQuiz.run (mkWorld lines out rnd d (Some self))
      = (Ok (), mkWorld (drop (2 * length selected) lines)
                  (out ++ banner ++ added ++ report self') rnd d'
                  (Some self'))
    ∧ Z.of_nat (length selected) = Self.count self
    ∧ selected ⊆+ Self.questions self
    ∧ asked added = map Question.question selected
    ∧ Self.total self' = Self.total self + Self.count self
    ∧ Self.score self ≤ Self.score self' ≤ Self.score self + Self.count self
    ∧ Self.count self' = Self.count self.
Proof.
  intros Hk Hlines.
  destruct (select_ok self (mkWorld lines (out ++ banner) rnd d (Some self)) Hk)
    as (selected & d' & Hsel & Hlen & Hsub). simpl in Hsel.
  destruct (ask_all_answered selected 1 self lines (out ++ banner) rnd d')
    as (added & self' & Hrun & Hasked & Htotal & Hscore & Hq & Hc & Hr);
    [lia|].
  exists selected, added, self', d'.
  split_and!; try done; try lia.
  unfold ExamQuiz.run. run_monad.
  unfold banner in Hsel, Hrun. rewrite <- !app_assoc. simpl.
  rewrite Hsel, Hrun, show_results_spec.
  by rewrite <- !app_assoc.
Qed.

(** [run] on any world that holds a session, however it ends: the
    counters only grow, the score by no more than the total. *)
Lemma run_counters (w : World) (self : Self.t) :
  session w = Some self →
  ∃ self',
    session (ExamQuiz.run w).2 = Some self'
    ∧ Self.total self ≤ Self.total self'
    ∧ Self.score self ≤ Self.score self'
    ∧ Self.score self' - Self.score self
      ≤ Self.total self' - Self.total self.
Proof.
  destruct w as [i o e d s]. simpl. intros ->.
  unfold ExamQuiz.run. run_monad.
  match goal with |- context [ExamQuiz.select self ?w] =>
    destruct (select_frame self w) as (r & d' & ->) end.
  simpl. destruct r as [selected|exn]; simpl.
  - match goal with |- context [for_each ?l ?b ?w] =>
      destruct (ask_all_counters l w self eq_refl)
        as (self' & Hs & Ht & Hsc & Hd & _);
      destruct (for_each l b w) as [[[]|exn] [i2 o2 e2 d2 s2]] end;
      simpl in Hs; subst s2.
    + rewrite show_results_spec. simpl. exists self'.
      split_and!; [done|lia..].
    + simpl. exists self'. split_and!; [done|lia..].
  - exists self. split_and!; [done|lia..].
Qed.

End whole_run.

Section whole_main.
Context `{StrMethods}.

Lemma init_spec questions count random_order (w : World) :
  ExamQuiz.__init__ questions count random_order w
  = (Ok (), mkWorld (stdin w) (stdout w) (entropy w) (draws w)
              (Some (fresh questions count random_order))).
Proof. reflexivity. Qed.

Lemma fresh_count_range questions count random_order :
  0 ≤ count →
  0 ≤ Self.count (fresh questions count random_order)
    ≤ Z.of_nat (length (Self.questions (fresh questions count random_order))).
Proof. simpl. lia. Qed.

(** With nothing left after filtering, [main] prints its message and
    leaves through [sys.exit(1)]; nothing else of the world changes. *)
Lemma main_on_empty dataset args (w : World) :
  filter_questions dataset (Args.category args) (Args.difficulty args) = [] →
  main_on dataset args w
  = (Raise (SystemExit 1),
     mkWorld (stdin w) (stdout w ++ [NoQuestionsFound]) (entropy w)
       (draws w) (session w)).
Proof. unfold main_on. intros ->. reflexivity. Qed.

(** Otherwise [main] constructs the session and runs it. *)
Lemma main_on_nonempty dataset args (w : World) :
  let filtered :=
    filter_questions dataset (Args.category args) (Args.difficulty args) in
  filtered ≠ [] →
  main_on dataset args w
  = ExamQuiz.run
      (mkWorld (stdin w) (stdout w) (entropy w) (draws w)
         (Some (fresh filtered (Args.count args) (Args.random args)))).
Proof.
  simpl. unfold main_on. intros Hne.
  destruct (filter_questions _ _ _) as [|q l] eqn:Hf; [done|].
  reflexivity.
Qed.

End whole_main.

(** ** The verdict *)

Lemma verdict_thresholds (p : float) :
  (verdict p = Exzellent ↔ fle 90 p)
  ∧ (verdict p = Gut ↔ ¬ fle 90 p ∧ fle 70 p)
  ∧ (verdict p = Bestanden ↔ ¬ fle 90 p ∧ ¬ fle 70 p ∧ fle 50 p)
  ∧ (verdict p = NichtBestanden ↔ ¬ fle 90 p ∧ ¬ fle 70 p ∧ ¬ fle 50 p).
Proof.
  unfold verdict, fle.
  destruct (PrimFloat.leb 90 p), (PrimFloat.leb 70 p), (PrimFloat.leb 50 p);
    split_and!; split; try done; intros; try split_and!; try done;
    intuition congruence.
Qed.

(** On every pair of counters of a session of up to 500 questions, the
    binary64 percentage falls in the tier of the exact quotient: rounding
    moves no pair across a threshold. *)
Lemma verdict_exact_table :
  Forall (λ total,
    Forall (λ score,
      verdict (percentage_of score total) = exact_verdict score total)
      (seqZ 0 (total + 1)))
    (seqZ 0 501).
Proof. apply (bool_decide_unpack _). vm_compute. exact I. Qed.

Lemma verdict_exact (score total : Z) :
  0 ≤ score ≤ total → total ≤ 500 →
  verdict (percentage_of score total) = exact_verdict score total.
Proof.
  intros Hs Ht. pose proof verdict_exact_table as Htable.
  rewrite Forall_forall in Htable.
  specialize (Htable total). rewrite elem_of_seqZ in Htable.
  specialize (Htable ltac:(lia)). rewrite Forall_forall in Htable.
  apply Htable. rewrite elem_of_seqZ. lia.
Qed.

(** C3: for every final score and total, [show_results] prints the verdict
    chosen by the thresholds 90, 70 and 50 tried from the highest down,
    each with an inclusive lower bound: the top tier when the percentage
    is at least 90, else the second when it is at least 70, else the third
    when it is at least 50, else the failing one.  For the counters of a
    session of up to 500 questions this is the tier of the exact quotient.
    Exactly 90.0, 70.0 and 50.0 give the first, second and third tier and
    49.9 the failing one, as printed for 9/10, 7/10, 1/2 and 499/1000. *)
Theorem C3_verdict_by_ordered_thresholds (self : Self.t) i o e d :
  let shows (s : Self.t) (p : float) (v : Verdict) :=
    ExamQuiz.show_results (mkWorld i o e d (Some s))
    = (Ok (),
       mkWorld i
         (o ++ [ BlankRule; ResultTitle; Rule;
                 ScoreLine (Self.score s) (Self.total s);
                 PercentLine p; VerdictLine v ])
         e d (Some s)) in
  (∃ p,
     shows self p (verdict p)
     ∧ (verdict p = Exzellent ↔ fle 90 p)
     ∧ (verdict p = Gut ↔ ¬ fle 90 p ∧ fle 70 p)
     ∧ (verdict p = Bestanden ↔ ¬ fle 90 p ∧ ¬ fle 70 p ∧ fle 50 p)
     ∧ (verdict p = NichtBestanden ↔ ¬ fle 90 p ∧ ¬ fle 70 p ∧ ¬ fle 50 p)
     ∧ (0 ≤ Self.score self ≤ Self.total self → Self.total self ≤ 500 →
        verdict p = exact_verdict (Self.score self) (Self.total self)))
  ∧ verdict 90 = Exzellent
  ∧ verdict 70 = Gut
  ∧ verdict 50 = Bestanden
  ∧ verdict f49_9 = NichtBestanden
  ∧ shows (Self.mk [] 10 false 9 10) 90%float Exzellent
  ∧ shows (Self.mk [] 10 false 7 10) 70%float Gut
  ∧ shows (Self.mk [] 2 false 1 2) 50%float Bestanden
  ∧ shows (Self.mk [] 1000 false 499 1000) f49_9 NichtBestanden.
Proof.
  intros shows. unfold shows.
  split; [|split_and!; try (vm_compute; reflexivity);
           rewrite show_results_spec; reflexivity].
  eexists. split.
  { rewrite show_results_spec. unfold report. reflexivity. }
  match goal with |- (verdict ?p = _ ↔ _) ∧ _ =>
    destruct (verdict_thresholds p) as (H1 & H2 & H3 & H4) end.
  split_and!; [exact H1 | exact H2 | exact H3 | exact H4 |].
  intros Hs Ht. rewrite <- verdict_exact by done.
  unfold percentage_of.
  destruct (decide (Self.total self > 0)), (decide (Self.total self = 0));
    try lia; reflexivity.
Qed.

(** C9: for every reachable pair of counters, [show_results] completes
    without an exception and the percentage it reports is 0 when [total]
    is 0 and [score / total * 100] otherwise; the division itself raises
    on a zero divisor, and the guard keeps it from being reached. *)
Theorem C9_percentage_guarded (self : Self.t) i o e d :
  0 ≤ Self.score self ≤ Self.total self →
  ExamQuiz.show_results (mkWorld i o e d (Some self))
  = (Ok (),
     let p := percentage_of (Self.score self) (Self.total self) in
     mkWorld i
       (o ++ [ BlankRule; ResultTitle; Rule;
               ScoreLine (Self.score self) (Self.total self);
               PercentLine p; VerdictLine (verdict p) ])
       e d (Some self))
  ∧ (Self.total self = 0 →
     percentage_of (Self.score self) (Self.total self) = 0%float)
  ∧ (Self.total self ≠ 0 →
     percentage_of (Self.score self) (Self.total self)
     = (Z_to_float (Self.score self) / Z_to_float (Self.total self) * 100)%float)
  ∧ truediv (Self.score self) 0 (mkWorld i o e d (Some self))
    = (Raise ZeroDivisionError, mkWorld i o e d (Some self)).
Proof.
  intros Hreach. split_and!.
  - rewrite show_results_spec. unfold report, percentage_of. simpl.
    destruct (decide (Self.total self > 0)), (decide (Self.total self = 0));
      try lia; reflexivity.
  - intros Hz. unfold percentage_of. by rewrite decide_True.
  - intros Hnz. unfold percentage_of. by rewrite decide_False.
  - reflexivity.
Qed.

Lemma C9_percentage_guarded_witness :
  ExamQuiz.show_results
    (mkWorld [] [] (λ _, 0%nat) 0 (Some (Self.mk QUESTIONS 2 false 1 2)))
  = (Ok (),
     mkWorld []
       [ BlankRule; ResultTitle; Rule; ScoreLine 1 2;
         PercentLine 50; VerdictLine Bestanden ]
       (λ _, 0%nat) 0 (Some (Self.mk QUESTIONS 2 false 1 2))).
Proof.
  assert (Hreach : 0 ≤ Self.score (Self.mk QUESTIONS 2 false 1 2)
                   ≤ Self.total (Self.mk QUESTIONS 2 false 1 2))
    by (simpl; lia).
  exact (proj1 (C9_percentage_guarded (Self.mk QUESTIONS 2 false 1 2)
                  [] [] (λ _, 0%nat) 0%nat Hreach)).
Defined.

(** ** The script from start to end *)

Lemma asked_app (out1 out2 : list Output) :
  asked (out1 ++ out2) = asked out1 ++ asked out2.
Proof. apply omap_app. Qed.

Section end_to_end.
Context `{StrMethods}.

(** A run of the script with a count that is not negative, a filter
    result that is not empty and two input lines per question to ask. *)
Lemma main_on_answered dataset args lines rnd :
  let filtered :=
    filter_questions dataset (Args.category args) (Args.difficulty args) in
  let self := fresh filtered (Args.count args) (Args.random args) in
  0 ≤ Args.count args →
  filtered ≠ [] →
  (2 * Z.to_nat (Self.count self) ≤ length lines)%nat →
  ∃ selected added self' d',
    ExamQuiz.select self (mkWorld lines banner rnd 0 (Some self))
    = (Ok selected, mkWorld lines banner rnd d' (Some self))
    ∧ main_on dataset args (initial_world lines rnd)
      = (Ok (), mkWorld (drop (2 * length selected) lines)
                  (banner ++ added ++ report self') rnd d' (Some self'))
    ∧ Z.of_nat (length selected) = Self.count self
    ∧ selected ⊆+ filtered
    ∧ asked (banner ++ added ++ report self')
      = map Question.question selected
    ∧ Self.total self' = Self.count self
    ∧ 0 ≤ Self.score self' ≤ Self.total self'
    ∧ Self.count self' = Self.count self.
Proof.
  intros filtered self Hcount Hne Hlines.
  destruct (run_answered self lines [] rnd 0%nat)
    as (selected & added & self' & d' & Hsel & Hrun & Hlen & Hsub
        & Hasked & Htotal & Hscore & Hc);
    [by apply fresh_count_range | done |].
  exists selected, added, self', d'.
  rewrite main_on_nonempty by done. unfold initial_world. simpl.
  fold filtered. fold self. simpl in Hsel, Hrun.
  assert (Ht0 : Self.total self = 0) by done.
  assert (Hs0 : Self.score self = 0) by done.
  assert (0 ≤ Self.count self) by (by apply fresh_count_range).
  split_and!; try done; try lia.
  rewrite !asked_app, Hasked. simpl. by rewrite app_nil_r.
Qed.

End end_to_end.

(** ** The count *)

(** C4, as stated, at the requested count -1 on the two questions of
    [QUESTIONS], sequential order: one question is asked, which is not
    [min(-1, 2)]. *)
Lemma C4_negative_count_counterexample :
  Z.of_nat (length (asked (stdout
    (@main ascii_str (Args.mk (-1) None None false)
       (initial_world ["b"; ""] (λ _, 0%nat))).2)))
  ≠ Z.min (-1)
      (Z.of_nat (length (@filter_questions ascii_str QUESTIONS None None))).
Proof. vm_compute. discriminate. Qed.

(** C4 (amended): for every requested count that is not negative and
    every non-empty filtered list, the session selects
    [min(requested, len(filtered))] questions, and when standard input
    holds its two lines per question exactly that many questions are
    asked: asking for more than there are reduces the count to what is
    available, without an error. *)
Theorem C4_count_is_clamped `{StrMethods} (dataset : list Question.t)
    (args : Args.t) (lines : list string) (rnd : nat → nat) :
  let filtered :=
    filter_questions dataset (Args.category args) (Args.difficulty args) in
  let self := fresh filtered (Args.count args) (Args.random args) in
  let n := Z.min (Args.count args) (Z.of_nat (length filtered)) in
  0 ≤ Args.count args →
  filtered ≠ [] →
  (∃ selected d',
     ExamQuiz.select self (mkWorld lines banner rnd 0 (Some self))
     = (Ok selected, mkWorld lines banner rnd d' (Some self))
     ∧ Z.of_nat (length selected) = n)
  ∧ ((2 * Z.to_nat n ≤ length lines)%nat →
     ∃ w' self',
       main_on dataset args (initial_world lines rnd) = (Ok (), w')
       ∧ session w' = Some self'
       ∧ Z.of_nat (length (asked (stdout w'))) = n
       ∧ Self.total self' = n
       ∧ Self.count self' = n).
Proof.
  intros filtered self n Hcount Hne. split.
  - destruct (select_ok self (mkWorld lines banner rnd 0 (Some self)))
      as (selected & d' & Hsel & Hlen & _);
      [by apply fresh_count_range|].
    by exists selected, d'.
  - intros Hlines.
    destruct (main_on_answered dataset args lines rnd Hcount Hne Hlines)
      as (selected & added & self' & d' & _ & Hmain & Hlen & _ & Hasked
          & Htotal & _ & Hc).
    eexists _, self'. split; [exact Hmain|]. cbn [stdout session].
    split_and!; [done | | done | done].
    by rewrite Hasked, length_map.
Qed.

Lemma C4_count_is_clamped_witness :
  ∃ w' self',
    @main ascii_str (Args.mk 5 None None false)
      (initial_world ["b"; ""; "x"; ""] (λ _, 0%nat)) = (Ok (), w')
    ∧ session w' = Some self'
    ∧ Z.of_nat (length (asked (stdout w'))) = 2
    ∧ Self.total self' = 2
    ∧ Self.count self' = 2.
Proof.
  assert (Hcount : 0 ≤ Args.count (Args.mk 5 None None false))
    by (simpl; lia).
  assert (Hne : @filter_questions ascii_str QUESTIONS None None ≠ [])
    by discriminate.
  refine (proj2 (@C4_count_is_clamped ascii_str QUESTIONS
                   (Args.mk 5 None None false) ["b"; ""; "x"; ""]
                   (λ _, 0%nat) Hcount Hne) _).
  simpl. lia.
Defined.

(** ** The selection of a session *)

(** The records of [QUESTIONS] are pairwise different. *)
Lemma questions_distinct : NoDup QUESTIONS.
Proof.
  unfold QUESTIONS. repeat constructor; unfold_elem; intros Hin;
    decompose [or] Hin; done.
Qed.

(** C6, as stated, at the requested count -1 in random order:
    [random.sample] raises [ValueError], so that no record is selected and
    no question is asked. *)
Lemma C6_negative_count_counterexample :
  ExamQuiz.select (fresh QUESTIONS (-1) true)
    (mkWorld ["b"; ""] banner (λ _, 0%nat) 0 (Some (fresh QUESTIONS (-1) true)))
  = (Raise ValueError,
     mkWorld ["b"; ""] banner (λ _, 0%nat) 0 (Some (fresh QUESTIONS (-1) true)))
  ∧ (@main ascii_str (Args.mk (-1) None None true)
       (initial_world ["b"; ""] (λ _, 0%nat))).1 = Raise ValueError
  ∧ asked (stdout (@main ascii_str (Args.mk (-1) None None true)
                     (initial_world ["b"; ""] (λ _, 0%nat))).2) = [].
Proof. by vm_compute. Qed.

(** C6 (amended): when randomOrder is true and the requested count is not
    negative, the selected questions are [count] records drawn from the
    filtered list without replacement, whatever the random source yields:
    no position of the list is drawn twice, so that no record appears
    twice when the dataset holds none twice, and every selected record
    belongs to the filtered list. *)
Theorem C6_random_selection_without_replacement `{StrMethods}
    (dataset : list Question.t) (category difficulty : option string)
    (count : Z) (w : World) :
  let filtered := filter_questions dataset category difficulty in
  let self := fresh filtered count true in
  0 ≤ count →
  ∃ selected d',
    ExamQuiz.select self w
    = (Ok selected, mkWorld (stdin w) (stdout w) (entropy w) d' (session w))
    ∧ Z.of_nat (length selected) = Self.count self
    ∧ Self.count self = Z.min count (Z.of_nat (length filtered))
    ∧ selected ⊆+ filtered
    ∧ (∀ q, q ∈ selected → q ∈ filtered)
    ∧ (NoDup dataset → NoDup selected)
    ∧ NoDup QUESTIONS.
Proof.
  intros filtered self Hcount.
  destruct (select_ok self w) as (selected & d' & Hsel & Hlen & Hsub);
    [by apply fresh_count_range|].
  exists selected, d'. split_and!; try done.
  - intros q Hq. by apply (elem_of_submseteq selected).
  - intros Hnd. apply (submseteq_NoDup selected filtered); [done|].
    unfold filtered. rewrite filter_questions_spec. by apply NoDup_filter.
  - apply questions_distinct.
Qed.

Lemma C6_random_selection_witness :
  ∃ selected d',
    ExamQuiz.select (fresh QUESTIONS 5 true) (initial_world [] (λ _, 1%nat))
    = (Ok selected, mkWorld [] [] (λ _, 1%nat) d' None)
    ∧ Z.of_nat (length selected) = 2
    ∧ 2 = Z.min 5 2
    ∧ selected ⊆+ QUESTIONS
    ∧ (∀ q, q ∈ selected → q ∈ QUESTIONS)
    ∧ (NoDup QUESTIONS → NoDup selected)
    ∧ NoDup QUESTIONS.
Proof.
  refine (@C6_random_selection_without_replacement ascii_str QUESTIONS
            None None 5 (initial_world [] (λ _, 1%nat)) _).
  lia.
Defined.

(** C7, as stated, at the requested count -1 in sequential order on the
    two questions of [QUESTIONS]: [questions[:-1]] is selected, which is
    one record and not the first [count] records, [count] being -1. *)
Lemma C7_negative_count_counterexample :
  ∃ selected w,
    ExamQuiz.select (fresh QUESTIONS (-1) false) (initial_world [] (λ _, 0%nat))
    = (Ok selected, w)
    ∧ Self.count (fresh QUESTIONS (-1) false) = -1
    ∧ Z.of_nat (length selected) = 1
    ∧ selected ≠ take (Z.to_nat (-1)) QUESTIONS.
Proof. eexists _, _. split_and!; [reflexivity | done | done | discriminate]. Qed.

(** C7 (amended): when randomOrder is false and the requested count is
    not negative, the session selects exactly the first [count] records
    of the filtered list in their original order, and with two input lines
    per question it asks exactly these, in that order; on the two
    questions of [QUESTIONS] with requested count 5 both are selected in
    their original order. *)
Theorem C7_sequential_selection_is_prefix `{StrMethods}
    (dataset : list Question.t) (category difficulty : option string)
    (count : Z) (lines : list string) (rnd : nat → nat) (w : World) :
  let filtered := filter_questions dataset category difficulty in
  let self := fresh filtered count false in
  let first := take (Z.to_nat (Self.count self)) filtered in
  0 ≤ count →
  ExamQuiz.select self w = (Ok first, w)
  ∧ Self.count self = Z.min count (Z.of_nat (length filtered))
  ∧ first `prefix_of` filtered
  ∧ (filtered ≠ [] → (2 * length first ≤ length lines)%nat →
     (main_on dataset (Args.mk count category difficulty false)
        (initial_world lines rnd)).1 = Ok ()
     ∧ asked (stdout (main_on dataset (Args.mk count category difficulty false)
                        (initial_world lines rnd)).2)
       = map Question.question first)
  ∧ ExamQuiz.select (fresh QUESTIONS 5 false) w = (Ok QUESTIONS, w).
Proof.
  intros filtered self first Hcount.
  assert (Hsel : ∀ w', ExamQuiz.select self w' = (Ok first, w')).
  { intros w'. rewrite select_sequential by done.
    rewrite slice_to_nonneg by (by apply fresh_count_range). done. }
  split_and!; [apply Hsel | done | | | done].
  - exists (drop (Z.to_nat (Self.count self)) filtered).
    symmetry. apply take_drop.
  - intros Hne Hlines.
    assert (Hfirst : Z.of_nat (length first) = Self.count self).
    { unfold first. rewrite length_take.
      pose proof (fresh_count_range filtered count false Hcount) as Hr.
      simpl in Hr |- *. lia. }
    assert (Hl : (2 * Z.to_nat (Self.count self) ≤ length lines)%nat) by lia.
    destruct (main_on_answered dataset
                (Args.mk count category difficulty false) lines rnd)
      as (selected & added & self' & d' & Hsel' & Hmain & _ & _ & Hasked & _);
      [done | done | exact Hl |].
    simpl in Hsel'. fold filtered in Hsel'. fold self in Hsel'.
    rewrite Hsel in Hsel'. injection Hsel' as <- <-.
    rewrite Hmain. cbn [fst snd stdout]. by rewrite Hasked.
Qed.

Lemma C7_sequential_selection_witness :
  ExamQuiz.select (fresh QUESTIONS 1 false) (initial_world [] (λ _, 0%nat))
  = (Ok (take 1 QUESTIONS), initial_world [] (λ _, 0%nat)).
Proof.
  assert (Hcount : 0 ≤ 1) by lia.
  exact (proj1 (@C7_sequential_selection_is_prefix ascii_str QUESTIONS
                  None None 1 [] (λ _, 0%nat)
                  (initial_world [] (λ _, 0%nat)) Hcount)).
Defined.

(** ** Exit status *)

(** C5: whenever the filters leave no question, the script prints its
    message and ends with exit status 1, having read nothing, drawn
    nothing and constructed no session; whenever [main] returns, the exit
    status is 0, which happens for a non-empty filter result, a count that
    is not negative and two input lines per question, and then a session
    has been constructed.  On [QUESTIONS], the criteria firewall and hard
    leave nothing and the status is 1. *)
Theorem C5_empty_filter_exits_with_1 `{StrMethods}
    (dataset : list Question.t) (args : Args.t) (lines : list string)
    (rnd : nat → nat) :
  let filtered :=
    filter_questions dataset (Args.category args) (Args.difficulty args) in
  let outcome := main_on dataset args (initial_world lines rnd) in
  (filtered = [] →
   outcome = (Raise (SystemExit 1), mkWorld lines [NoQuestionsFound] rnd 0 None)
   ∧ exit_status outcome.1 = 1
   ∧ session outcome.2 = None)
  ∧ (outcome.1 = Ok () → exit_status outcome.1 = 0 ∧ filtered ≠ [])
  ∧ (filtered ≠ [] → 0 ≤ Args.count args →
     (2 * length filtered ≤ length lines)%nat →
     outcome.1 = Ok () ∧ exit_status outcome.1 = 0
     ∧ is_Some (session outcome.2))
  ∧ exit_status
      (@main ascii_str (Args.mk 10 (Some "firewall") (Some "hard") false)
         (initial_world lines rnd)).1 = 1.
Proof.
  intros filtered outcome. split_and!.
  - intros Hempty. unfold outcome.
    rewrite main_on_empty by done. done.
  - intros Hok. split; [by rewrite Hok|].
    intros Hempty. unfold outcome in Hok.
    rewrite main_on_empty in Hok by done. discriminate Hok.
  - intros Hne Hcount Hlines.
    destruct (main_on_answered dataset args lines rnd Hcount Hne)
      as (selected & added & self' & d' & _ & Hmain & _);
      [unfold filtered in *; cbn [fresh Self.count]; lia|].
    unfold outcome. rewrite Hmain. simpl. eauto.
  - reflexivity.
Qed.


(** * Further properties of the script *)

(** ** The loop of run on any input *)

Section any_input.
Context `{StrMethods}.

Lemma transcript_split self num q line :
  transcript self num q line = asking self num q ++ feedback q line.
Proof. unfold transcript, asking, feedback. by rewrite <- !app_assoc. Qed.

(** End of input at the answer prompt: the question has been shown and the
    session is as before. *)
Lemma ask_question_no_answer num q self out rnd d :
  ExamQuiz.ask_question num q (mkWorld [] out rnd d (Some self))
  = (Raise EOFError, mkWorld [] (out ++ asking self num q) rnd d (Some self)).
Proof.
  unfold ExamQuiz.ask_question, asking. run_monad.
  by rewrite <- !app_assoc.
Qed.

(** End of input at the acknowledgement prompt: the answer has been
    marked. *)
Lemma ask_question_no_ack num q self line out rnd d :
  ExamQuiz.ask_question num q (mkWorld [line] out rnd d (Some self))
  = (Raise EOFError,
     mkWorld [] (out ++ asking self num q ++ feedback q line) rnd d
       (Some (mark q line self))).
Proof.
  unfold ExamQuiz.ask_question, asking, feedback, mark, normalize.
  run_monad.
  destruct (decide _); run_monad; rewrite <- !app_assoc; reflexivity.
Qed.

(** The loop of [run] on any standard input. *)
Lemma ask_all_total (selected : list Question.t) :
  ∀ (start : Z) (self : Self.t) lines out rnd d,
    for_each (enumerate selected start)
      (λ iq, ExamQuiz.ask_question iq.1 iq.2)
      (mkWorld lines out rnd d (Some self))
    = (if decide (2 * length selected ≤ length lines)%nat
       then Ok () else Raise EOFError,
       mkWorld (drop (2 * length selected) lines)
         (out ++ played self start selected lines) rnd d
         (Some (marks selected lines self))).
Proof.
  induction selected as [|q selected IH]; intros start self lines out rnd d.
  - cbn [enumerate for_each played marks length]. unfold mret, M_ret.
    rewrite app_nil_r. change (2 * 0)%nat with 0%nat. rewrite drop_0.
    destruct (decide _) as [|Hn]; [done | lia].
  - cbn [enumerate]. rewrite for_each_cons. cbn [fst snd].
    destruct lines as [|line [|ack rest]].
    + rewrite ask_question_no_answer. cbn [played marks].
      rewrite drop_ge by (simpl; lia).
      destruct (decide _) as [Hl|]; [simpl in Hl; lia | done].
    + rewrite ask_question_no_ack. cbn [played marks].
      rewrite drop_ge by (simpl; lia).
      destruct (decide _) as [Hl|]; [simpl in Hl; lia | done].
    + rewrite ask_question_answered, IH, transcript_split.
      replace (2 * length (q :: selected))%nat
        with (S (S (2 * length selected))) by (simpl; lia).
      cbn [drop played marks length]. rewrite <- !app_assoc.
      destruct (decide (2 * length selected ≤ length rest)%nat);
        [rewrite decide_True by lia | rewrite decide_False by lia];
        reflexivity.
Qed.

(** [run], given what the selection yields. *)
Lemma run_total (self : Self.t) selected lines out rnd d d' :
  ExamQuiz.select self (mkWorld lines (out ++ banner) rnd d (Some self))
  = (Ok selected, mkWorld lines (out ++ banner) rnd d' (Some self)) →
  ExamQuiz.run (mkWorld lines out rnd d (Some self))
  = if decide (2 * length selected ≤ length lines)%nat
    then (Ok (),
          mkWorld (drop (2 * length selected) lines)
            (out ++ banner ++ played self 1 selected lines
                 ++ report (marks selected lines self))
            rnd d' (Some (marks selected lines self)))
    else (Raise EOFError,
          mkWorld [] (out ++ banner ++ played self 1 selected lines)
            rnd d' (Some (marks selected lines self))).
Proof.
  intros Hsel. unfold ExamQuiz.run. run_monad.
  unfold banner in Hsel. rewrite <- !app_assoc. simpl.
  rewrite Hsel, ask_all_total.
  destruct (decide _) as [Hl|Hl].
  - rewrite show_results_spec. by rewrite <- !app_assoc.
  - rewrite drop_ge by lia. by rewrite <- !app_assoc.
Qed.

End any_input.

(** ** What the loop leaves in the session and in the transcript *)

Section loop_facts.
Context `{StrMethods}.

Lemma mark_static q line self :
  Self.questions (mark q line self) = Self.questions self
  ∧ Self.count (mark q line self) = Self.count self
  ∧ Self.random_order (mark q line self) = Self.random_order self.
Proof. unfold mark. by destruct (decide _). Qed.

Lemma mark_score q line self :
  Self.score (mark q line self)
  = Self.score self
    + (if decide (normalize line = Question.answer q) then 1 else 0).
Proof. unfold mark. destruct (decide _); simpl; lia. Qed.

Lemma marks_count selected :
  ∀ lines self, Self.count (marks selected lines self) = Self.count self.
Proof.
  induction selected as [|q selected IH]; intros lines self; [done|].
  destruct lines as [|line [|ack rest]]; cbn [marks]; [done| |].
  - apply mark_static.
  - rewrite IH. apply mark_static.
Qed.

(** The score grows by the number of right answers, on any input. *)
Lemma marks_score selected :
  ∀ lines self,
    Self.score (marks selected lines self)
    = Self.score self + right_answers selected lines.
Proof.
  induction selected as [|q selected IH]; intros lines self.
  - simpl. lia.
  - destruct lines as [|line [|ack rest]]; cbn [marks right_answers tail].
    + lia.
    + rewrite mark_score. destruct selected; simpl; lia.
    + rewrite IH, mark_score. lia.
Qed.

(** The total grows by the number of questions when each finds its two
    lines. *)
Lemma marks_total selected :
  ∀ lines self,
    (2 * length selected ≤ length lines)%nat →
    Self.total (marks selected lines self)
    = Self.total self + Z.of_nat (length selected).
Proof.
  induction selected as [|q selected IH]; intros lines self Hl.
  - simpl. lia.
  - destruct lines as [|line [|ack rest]]; simpl in Hl; try lia.
    cbn [marks]. rewrite IH by lia.
    pose proof (mark_counters q line self) as (-> & _). simpl length. lia.
Qed.

Lemma right_answers_bounds selected :
  ∀ lines, 0 ≤ right_answers selected lines ≤ Z.of_nat (length selected).
Proof.
  induction selected as [|q selected IH]; intros lines; simpl; [lia|].
  destruct lines as [|line rest]; [lia|].
  specialize (IH (tail rest)). destruct (decide _); lia.
Qed.

Lemma headers_asking self num q :
  headers (asking self num q) = [(num, Self.count self)].
Proof.
  unfold asking, headers. rewrite !omap_app. simpl.
  assert (Hopt : ∀ l : list (string * string),
             omap (λ o, match o with
                        | QHeader n c _ => Some (n, c) | _ => None end)
               (map (λ item, QOption item.1 item.2) l) = []).
  { induction l as [|x l IH]; [done|]. simpl. apply IH. }
  by rewrite Hopt.
Qed.

Lemma headers_feedback q line : headers (feedback q line) = [].
Proof. unfold feedback, headers. simpl. by destruct (decide _). Qed.

(** Questions are numbered upwards from the start, each against the count
    of the session. *)
Lemma headers_played selected :
  ∀ self num lines,
    (2 * length selected ≤ length lines)%nat →
    headers (played self num selected lines)
    = (λ k, (k, Self.count self)) <$> seqZ num (Z.of_nat (length selected)).
Proof.
  induction selected as [|q selected IH]; intros self num lines Hl; [done|].
  destruct lines as [|line [|ack rest]]; simpl in Hl; try lia.
  cbn [played length]. unfold headers in *. rewrite !omap_app.
  fold (headers (asking self num q)). fold (headers (feedback q line)).
  rewrite headers_asking, headers_feedback, IH by lia.
  rewrite Nat2Z.inj_succ, (seqZ_cons num) by lia.
  replace (Z.pred (Z.succ (Z.of_nat (length selected))))
    with (Z.of_nat (length selected)) by lia.
  replace (Z.succ num) with (num + 1) by lia.
  destruct (mark_static q line self) as (_ & -> & _). done.
Qed.

Lemma reports_asking self num q :
  Forall (λ o, reports o = false) (asking self num q).
Proof.
  unfold asking. rewrite !Forall_app. split_and!.
  - by repeat constructor.
  - apply Forall_fmap, Forall_true. done.
  - by repeat constructor.
Qed.

Lemma reports_feedback q line :
  Forall (λ o, reports o = false) (feedback q line).
Proof. unfold feedback. destruct (decide _); by repeat constructor. Qed.

(** The loop prints no part of the final report. *)
Lemma reports_played selected :
  ∀ self num lines,
    Forall (λ o, reports o = false) (played self num selected lines).
Proof.
  induction selected as [|q selected IH]; intros self num lines; [constructor|].
  destruct lines as [|line [|ack rest]]; cbn [played];
    rewrite ?Forall_app; split_and?;
    auto using reports_asking, reports_feedback.
Qed.

Lemma played_lines_of selected :
  ∀ self num pairs1 pairs2,
    pairs1.*1 = pairs2.*1 →
    played self num selected (lines_of pairs1)
    = played self num selected (lines_of pairs2)
    ∧ marks selected (lines_of pairs1) self
      = marks selected (lines_of pairs2) self.
Proof.
  induction selected as [|q selected IH]; intros self num pairs1 pairs2 Hp;
    [done|].
  destruct pairs1 as [|[a1 k1] pairs1], pairs2 as [|[a2 k2] pairs2];
    simplify_eq/=; [done|].
  destruct (IH (mark q a2 self) (num + 1) pairs1 pairs2) as [-> ->]; done.
Qed.

Lemma length_lines_of pairs : length (lines_of pairs) = (2 * length pairs)%nat.
Proof. induction pairs as [|p pairs IH]; simpl; lia. Qed.

End loop_facts.

(** ** main, given what the selection yields *)

Section main_facts.
Context `{StrMethods}.

Lemma run_select_raises (self : Self.t) e lines out rnd d d' :
  ExamQuiz.select self (mkWorld lines (out ++ banner) rnd d (Some self))
  = (Raise e, mkWorld lines (out ++ banner) rnd d' (Some self)) →
  ExamQuiz.run (mkWorld lines out rnd d (Some self))
  = (Raise e, mkWorld lines (out ++ banner) rnd d' (Some self)).
Proof.
  intros Hsel. unfold ExamQuiz.run. run_monad.
  unfold banner in Hsel. rewrite <- !app_assoc in *. simpl in *.
  by rewrite Hsel.
Qed.

Lemma main_on_total dataset args selected lines rnd d' :
  let filtered :=
    filter_questions dataset (Args.category args) (Args.difficulty args) in
  let self := fresh filtered (Args.count args) (Args.random args) in
  filtered ≠ [] →
  ExamQuiz.select self (mkWorld lines banner rnd 0 (Some self))
  = (Ok selected, mkWorld lines banner rnd d' (Some self)) →
  main_on dataset args (initial_world lines rnd)
  = if decide (2 * length selected ≤ length lines)%nat
    then (Ok (),
          mkWorld (drop (2 * length selected) lines)
            (banner ++ played self 1 selected lines
               ++ report (marks selected lines self))
            rnd d' (Some (marks selected lines self)))
    else (Raise EOFError,
          mkWorld [] (banner ++ played self 1 selected lines)
            rnd d' (Some (marks selected lines self))).
Proof.
  intros filtered self Hne Hsel.
  rewrite main_on_nonempty by done. unfold initial_world. simpl.
  fold filtered. fold self.
  by rewrite (run_total self selected lines [] rnd 0%nat d').
Qed.

(** The selection of a session whose count lies in [0 .. len]. *)
Lemma select_fresh dataset args lines rnd :
  let filtered :=
    filter_questions dataset (Args.category args) (Args.difficulty args) in
  let self := fresh filtered (Args.count args) (Args.random args) in
  0 ≤ Args.count args →
  ∃ selected d',
    ExamQuiz.select self (mkWorld lines banner rnd 0 (Some self))
    = (Ok selected, mkWorld lines banner rnd d' (Some self))
    ∧ Z.of_nat (length selected) = Self.count self
    ∧ selected ⊆+ filtered.
Proof.
  intros filtered self Hcount.
  destruct (select_ok self (mkWorld lines banner rnd 0 (Some self)))
    as (selected & d' & Hsel & Hlen & Hsub);
    [by apply fresh_count_range|].
  by exists selected, d'.
Qed.

Lemma asked_asking self num q :
  asked (asking self num q) = [Question.question q].
Proof.
  unfold asking, asked. rewrite !omap_app.
  change (omap _ (map _ ?l))
    with (asked (map (λ x : string * string, QOption (id x).1 (id x).2) l)).
  by rewrite asked_options.
Qed.

Lemma asked_feedback q line : asked (feedback q line) = [].
Proof. unfold feedback, asked. simpl. by destruct (decide _). Qed.

Lemma asked_played selected :
  ∀ self num lines,
    (2 * length selected ≤ length lines)%nat →
    asked (played self num selected lines) = map Question.question selected.
Proof.
  induction selected as [|q selected IH]; intros self num lines Hl; [done|].
  destruct lines as [|line [|ack rest]]; simpl in Hl; try lia.
  cbn [played]. rewrite !asked_app, asked_asking, asked_feedback, IH by lia.
  done.
Qed.

End main_facts.

(** ** Scores, input and transcript of a run *)

(** X1: in a run that finds two input lines per question (count not
    negative, filter result not empty), the final score is the number of
    selected questions whose answer line, trimmed and upper-cased, equals
    the answer key, the final total is the number of selected questions,
    and the report prints exactly these two numbers. *)
Theorem X1_score_counts_right_answers `{StrMethods}
    (dataset : list Question.t) (args : Args.t) (lines : list string)
    (rnd : nat → nat) :
  let filtered :=
    filter_questions dataset (Args.category args) (Args.difficulty args) in
  let self := fresh filtered (Args.count args) (Args.random args) in
  let outcome := main_on dataset args (initial_world lines rnd) in
  0 ≤ Args.count args →
  filtered ≠ [] →
  (2 * Z.to_nat (Self.count self) ≤ length lines)%nat →
  ∃ selected d' self',
    ExamQuiz.select self (mkWorld lines banner rnd 0 (Some self))
    = (Ok selected, mkWorld lines banner rnd d' (Some self))
    ∧ outcome.1 = Ok ()
    ∧ session outcome.2 = Some self'
    ∧ Self.score self' = right_answers selected lines
    ∧ Self.total self' = Z.of_nat (length selected)
    ∧ ScoreLine (right_answers selected lines) (Z.of_nat (length selected))
      ∈ stdout outcome.2.
Proof.
  intros filtered self outcome Hcount Hne Hlines.
  destruct (select_fresh dataset args lines rnd Hcount)
    as (selected & d' & Hsel & Hlen & _).
  fold filtered in Hsel, Hlen. fold self in Hsel, Hlen.
  assert (Hl : (2 * length selected ≤ length lines)%nat) by lia.
  exists selected, d', (marks selected lines self).
  unfold outcome. rewrite (main_on_total dataset args selected lines rnd d')
    by done.
  fold filtered. fold self. rewrite decide_True by done.
  cbn [fst snd session stdout].
  assert (Hscore : Self.score (marks selected lines self)
                   = right_answers selected lines)
    by (rewrite marks_score; simpl; lia).
  assert (Htotal : Self.total (marks selected lines self)
                   = Z.of_nat (length selected))
    by (rewrite marks_total by done; simpl; lia).
  split_and!; try done.
  unfold report. rewrite Hscore, Htotal. unfold_elem. tauto.
Qed.

Lemma X1_score_counts_right_answers_witness :
  ∃ selected d' self',
    ExamQuiz.select (fresh QUESTIONS 2 false)
      (mkWorld ["b"; ""; "a"; ""] banner (λ _, 0%nat) 0
         (Some (fresh QUESTIONS 2 false)))
    = (Ok selected,
       mkWorld ["b"; ""; "a"; ""] banner (λ _, 0%nat) d'
         (Some (fresh QUESTIONS 2 false)))
    ∧ (@main ascii_str (Args.mk 2 None None false)
         (initial_world ["b"; ""; "a"; ""] (λ _, 0%nat))).1 = Ok ()
    ∧ session (@main ascii_str (Args.mk 2 None None false)
                 (initial_world ["b"; ""; "a"; ""] (λ _, 0%nat))).2
      = Some self'
    ∧ Self.score self'
      = @right_answers ascii_str selected ["b"; ""; "a"; ""]
    ∧ Self.total self' = Z.of_nat (length selected)
    ∧ ScoreLine (@right_answers ascii_str selected ["b"; ""; "a"; ""])
        (Z.of_nat (length selected))
      ∈ stdout (@main ascii_str (Args.mk 2 None None false)
                  (initial_world ["b"; ""; "a"; ""] (λ _, 0%nat))).2.
Proof.
  assert (Hcount : 0 ≤ Args.count (Args.mk 2 None None false))
    by (simpl; lia).
  assert (Hne : @filter_questions ascii_str QUESTIONS None None ≠ [])
    by discriminate.
  refine (@X1_score_counts_right_answers ascii_str QUESTIONS
            (Args.mk 2 None None false) ["b"; ""; "a"; ""] (λ _, 0%nat)
            Hcount Hne _).
  simpl. lia.
Defined.

(** X2: whatever standard input holds, a run with a count that is not
    negative and a non-empty filter result consumes two lines for each of
    its [min(count, len)] questions and nothing more: the lines after
    these are left unread, and no line is left when the input is
    shorter. *)
Theorem X2_two_lines_per_question `{StrMethods}
    (dataset : list Question.t) (args : Args.t) (lines : list string)
    (rnd : nat → nat) :
  let filtered :=
    filter_questions dataset (Args.category args) (Args.difficulty args) in
  let n := Z.min (Args.count args) (Z.of_nat (length filtered)) in
  0 ≤ Args.count args →
  filtered ≠ [] →
  stdin (main_on dataset args (initial_world lines rnd)).2
  = drop (2 * Z.to_nat n) lines.
Proof.
  intros filtered n Hcount Hne.
  destruct (select_fresh dataset args lines rnd Hcount)
    as (selected & d' & Hsel & Hlen & _).
  rewrite (main_on_total dataset args selected lines rnd d') by done.
  fold filtered in Hlen. simpl in Hlen.
  replace (Z.to_nat n) with (length selected) by (unfold n; lia).
  destruct (decide _); cbn [snd stdin]; [done|].
  rewrite drop_ge by lia. done.
Qed.

Lemma X2_two_lines_per_question_witness :
  stdin (@main ascii_str (Args.mk 1 None None false)
           (initial_world ["b"; ""; "left"; "over"] (λ _, 0%nat))).2
  = drop (2 * Z.to_nat (Z.min 1 2)) ["b"; ""; "left"; "over"].
Proof.
  assert (Hcount : 0 ≤ Args.count (Args.mk 1 None None false))
    by (simpl; lia).
  assert (Hne : @filter_questions ascii_str QUESTIONS None None ≠ [])
    by discriminate.
  exact (@X2_two_lines_per_question ascii_str QUESTIONS
           (Args.mk 1 None None false) ["b"; ""; "left"; "over"]
           (λ _, 0%nat) Hcount Hne).
Defined.

(** X3: when standard input ends before every selected question has its
    two lines (count not negative, filter result not empty), the run ends
    with [EOFError], hence exit status 1; no part of the final report
    has been printed, the input is used up, and the answers read before
    the end are marked in the session all the same. *)
Theorem X3_end_of_input_aborts `{StrMethods}
    (dataset : list Question.t) (args : Args.t) (lines : list string)
    (rnd : nat → nat) :
  let filtered :=
    filter_questions dataset (Args.category args) (Args.difficulty args) in
  let self := fresh filtered (Args.count args) (Args.random args) in
  let outcome := main_on dataset args (initial_world lines rnd) in
  0 ≤ Args.count args →
  filtered ≠ [] →
  (length lines < 2 * Z.to_nat (Self.count self))%nat →
  outcome.1 = Raise EOFError
  ∧ exit_status outcome.1 = 1
  ∧ stdin outcome.2 = []
  ∧ Forall (λ o, reports o = false) (stdout outcome.2)
  ∧ ∃ selected d' self',
      ExamQuiz.select self (mkWorld lines banner rnd 0 (Some self))
      = (Ok selected, mkWorld lines banner rnd d' (Some self))
      ∧ session outcome.2 = Some self'
      ∧ Self.score self' = right_answers selected lines.
Proof.
  intros filtered self outcome Hcount Hne Hlines.
  destruct (select_fresh dataset args lines rnd Hcount)
    as (selected & d' & Hsel & Hlen & _).
  fold filtered in Hsel, Hlen. fold self in Hsel, Hlen.
  unfold outcome. rewrite (main_on_total dataset args selected lines rnd d')
    by done.
  fold filtered. fold self. rewrite decide_False by lia.
  cbn [fst snd session stdout stdin exit_status].
  split_and!; try done.
  - rewrite Forall_app. split; [by repeat constructor|].
    apply reports_played.
  - exists selected, d', (marks selected lines self).
    split_and!; try done. rewrite marks_score. simpl. lia.
Qed.

Lemma X3_end_of_input_aborts_witness :
  (@main ascii_str (Args.mk 2 None None false)
     (initial_world ["b"; ""; "c"] (λ _, 0%nat))).1 = Raise EOFError.
Proof.
  assert (Hcount : 0 ≤ Args.count (Args.mk 2 None None false))
    by (simpl; lia).
  assert (Hne : @filter_questions ascii_str QUESTIONS None None ≠ [])
    by discriminate.
  assert (Hlines : (length ["b"; ""; "c"]
                    < 2 * Z.to_nat (Self.count (fresh QUESTIONS 2 false)))%nat)
    by (simpl; lia).
  exact (proj1 (@X3_end_of_input_aborts ascii_str QUESTIONS
                  (Args.mk 2 None None false) ["b"; ""; "c"] (λ _, 0%nat)
                  Hcount Hne Hlines)).
Defined.

(** ** What the selection depends on *)

(** The sampling loop reads the random source only: on two worlds with
    the same source at the same position it has the same result and
    leaves the same position. *)
Lemma sample_loop_frame {A} (k : nat) :
  ∀ (pool : list A) (live : nat) (w1 w2 : World),
    entropy w1 = entropy w2 →
    draws w1 = draws w2 →
    ∃ r d',
      sample_loop pool live k w1
      = (r, mkWorld (stdin w1) (stdout w1) (entropy w1) d' (session w1))
      ∧ sample_loop pool live k w2
        = (r, mkWorld (stdin w2) (stdout w2) (entropy w2) d' (session w2)).
Proof.
  induction k as [|k IH];
    intros pool live [i1 o1 e1 d1 s1] [i2 o2 e2 d2 s2]; simpl;
    intros <- <-.
  - by exists (Ok []), d1.
  - unfold mbind, M_bind, randbelow. simpl.
    destruct (pool !! (e1 d1 `mod` live)%nat) as [x|];
      [|by exists (Raise IndexError), (S d1)].
    destruct (pool !! (live - 1)%nat) as [y|];
      [|by exists (Raise IndexError), (S d1)].
    destruct (IH (<[(e1 d1 `mod` live)%nat := y]> pool) (live - 1)%nat
                (mkWorld i1 o1 e1 (S d1) s1) (mkWorld i2 o2 e1 (S d1) s2)
                eq_refl eq_refl) as (r & d' & -> & ->).
    simpl. destruct r as [rest|e].
    + by exists (Ok (x :: rest)), d'.
    + by exists (Raise e), d'.
Qed.

(** So does the selection of a session. *)
Lemma select_frame2 (self : Self.t) (w1 w2 : World) :
  entropy w1 = entropy w2 →
  draws w1 = draws w2 →
  ∃ r d',
    ExamQuiz.select self w1
    = (r, mkWorld (stdin w1) (stdout w1) (entropy w1) d' (session w1))
    ∧ ExamQuiz.select self w2
      = (r, mkWorld (stdin w2) (stdout w2) (entropy w2) d' (session w2)).
Proof.
  intros He Hd. unfold ExamQuiz.select, random_sample.
  destruct (Self.random_order self).
  - destruct (decide _).
    + by apply sample_loop_frame.
    + exists (Raise ValueError), (draws w1). unfold raise. rewrite Hd at 2.
      by destruct w1, w2.
  - exists (Ok (slice_to (Self.questions self) (Self.count self))), (draws w1).
    unfold mret, M_ret. rewrite Hd at 2. by destruct w1, w2.
Qed.

(** X4: what is typed at the prompt that asks for Enter never matters:
    two inputs that give the same answer lines, whatever their
    acknowledgement lines, lead to the same result, the same transcript
    and the same session, for every dataset, arguments and random
    source. *)
Theorem X4_acknowledgements_are_discarded `{StrMethods}
    (dataset : list Question.t) (args : Args.t)
    (pairs1 pairs2 : list (string * string)) (rnd : nat → nat) :
  let outcome1 := main_on dataset args (initial_world (lines_of pairs1) rnd) in
  let outcome2 := main_on dataset args (initial_world (lines_of pairs2) rnd) in
  pairs1.*1 = pairs2.*1 →
  outcome1.1 = outcome2.1
  ∧ stdout outcome1.2 = stdout outcome2.2
  ∧ session outcome1.2 = session outcome2.2
  ∧ draws outcome1.2 = draws outcome2.2.
Proof.
  intros outcome1 outcome2 Hp. unfold outcome1, outcome2.
  destruct (decide (filter_questions dataset (Args.category args)
                      (Args.difficulty args) = [])) as [Hempty|Hne].
  { by rewrite !main_on_empty by done. }
  set (self := fresh (filter_questions dataset (Args.category args)
                        (Args.difficulty args))
                 (Args.count args) (Args.random args)).
  destruct (select_frame2 self
              (mkWorld (lines_of pairs1) banner rnd 0 (Some self))
              (mkWorld (lines_of pairs2) banner rnd 0 (Some self))
              eq_refl eq_refl) as (r & d' & Hsel1 & Hsel2).
  simpl in Hsel1, Hsel2. destruct r as [selected|e].
  - rewrite (main_on_total dataset args selected (lines_of pairs1) rnd d')
      by done.
    rewrite (main_on_total dataset args selected (lines_of pairs2) rnd d')
      by done.
    fold self.
    destruct (played_lines_of selected self 1 pairs1 pairs2 Hp) as [-> ->].
    assert (Hlen : length (lines_of pairs1) = length (lines_of pairs2)).
    { rewrite !length_lines_of. f_equal.
      by rewrite <- (length_fmap fst pairs1), Hp, length_fmap. }
    rewrite Hlen. by destruct (decide _).
  - rewrite !main_on_nonempty by done. unfold initial_world. fold self.
    rewrite (run_select_raises self e (lines_of pairs1) [] rnd 0%nat d')
      by done.
    rewrite (run_select_raises self e (lines_of pairs2) [] rnd 0%nat d')
      by done.
    done.
Qed.

Lemma X4_acknowledgements_are_discarded_witness :
  (@main ascii_str (Args.mk 2 None None false)
     (initial_world (lines_of [("b", ""); ("c", "")]) (λ _, 0%nat))).1
  = (@main ascii_str (Args.mk 2 None None false)
       (initial_world (lines_of [("b", "next"); ("c", "q")]) (λ _, 0%nat))).1.
Proof.
  assert (Hp : [("b", ""); ("c", "")].*1 = [("b", "next"); ("c", "q")].*1)
    by reflexivity.
  exact (proj1 (@X4_acknowledgements_are_discarded ascii_str QUESTIONS
                  (Args.mk 2 None None false) [("b", ""); ("c", "")]
                  [("b", "next"); ("c", "q")] (λ _, 0%nat) Hp)).
Defined.

(** X5: without [--random] the random source is never consulted: the
    whole outcome of the script is the same for any two random sources,
    and no random value is drawn. *)
Theorem X5_sequential_run_ignores_random_source `{StrMethods}
    (dataset : list Question.t) (count : Z)
    (category difficulty : option string) (lines : list string)
    (rnd1 rnd2 : nat → nat) :
  let args := Args.mk count category difficulty false in
  let outcome1 := main_on dataset args (initial_world lines rnd1) in
  let outcome2 := main_on dataset args (initial_world lines rnd2) in
  outcome1.1 = outcome2.1
  ∧ stdin outcome1.2 = stdin outcome2.2
  ∧ stdout outcome1.2 = stdout outcome2.2
  ∧ session outcome1.2 = session outcome2.2
  ∧ draws outcome1.2 = 0%nat
  ∧ draws outcome2.2 = 0%nat.
Proof.
  intros args outcome1 outcome2. unfold outcome1, outcome2.
  destruct (decide (filter_questions dataset (Args.category args)
                      (Args.difficulty args) = [])) as [Hempty|Hne].
  { by rewrite !main_on_empty by done. }
  set (self := fresh (filter_questions dataset (Args.category args)
                        (Args.difficulty args))
                 (Args.count args) (Args.random args)).
  set (selected := slice_to (Self.questions self) (Self.count self)).
  rewrite (main_on_total dataset args selected lines rnd1 0%nat)
    by (done || by apply select_sequential).
  rewrite (main_on_total dataset args selected lines rnd2 0%nat)
    by (done || by apply select_sequential).
  by destruct (decide _).
Qed.

(** ** Edge values of the count *)

(** X6: with [--count 0] and a non-empty filter result the script runs an
    empty quiz in either order: no question is asked, no input line is
    read and no random value drawn, the report shows 0 / 0 with 0 percent
    (the guarded branch of [show_results]) and the failing verdict, and
    the exit status is 0. *)
Theorem X6_count_zero_is_an_empty_quiz `{StrMethods}
    (dataset : list Question.t) (args : Args.t) (lines : list string)
    (rnd : nat → nat) :
  let filtered :=
    filter_questions dataset (Args.category args) (Args.difficulty args) in
  Args.count args = 0 →
  filtered ≠ [] →
  main_on dataset args (initial_world lines rnd)
  = (Ok (),
     mkWorld lines
       (banner ++ [ BlankRule; ResultTitle; Rule; ScoreLine 0 0;
                    PercentLine 0; VerdictLine NichtBestanden ])
       rnd 0 (Some (fresh filtered 0 (Args.random args))))
  ∧ exit_status (main_on dataset args (initial_world lines rnd)).1 = 0.
Proof.
  intros filtered Hzero Hne.
  assert (Hcount : 0 ≤ Args.count args) by lia.
  destruct (select_fresh dataset args lines rnd Hcount)
    as (selected & d' & Hsel & Hlen & _).
  fold filtered in Hsel, Hlen. rewrite Hzero in Hsel, Hlen.
  assert (selected = []) as ->.
  { apply length_zero_iff_nil. simpl in Hlen. lia. }
  assert (d' = 0%nat) as ->.
  { destruct (Args.random args).
    - rewrite select_random in Hsel by done.
      destruct (random_sample_spec (Self.questions (fresh filtered 0 true))
                  (Self.count (fresh filtered 0 true))
                  (mkWorld lines banner rnd 0
                     (Some (fresh filtered 0 true)))) as [Hin _].
      destruct Hin as (sel & Hrun & _); [simpl; lia|].
      rewrite Hrun in Hsel. simpl in Hsel.
      replace (Z.to_nat (0 `min` Z.of_nat (length filtered))) with 0%nat
        in Hsel by lia.
      by injection Hsel.
    - rewrite select_sequential in Hsel by done. by injection Hsel. }
  rewrite (main_on_total dataset args [] lines rnd 0%nat)
    by (done || by rewrite Hzero).
  fold filtered. rewrite Hzero. by rewrite decide_True by (simpl; lia).
Qed.

Lemma X6_count_zero_is_an_empty_quiz_witness :
  exit_status (@main ascii_str (Args.mk 0 None None true)
                 (initial_world ["b"] (λ _, 1%nat))).1 = 0.
Proof.
  assert (Hzero : Args.count (Args.mk 0 None None true) = 0) by reflexivity.
  assert (Hne : @filter_questions ascii_str QUESTIONS None None ≠ [])
    by discriminate.
  exact (proj2 (@X6_count_zero_is_an_empty_quiz ascii_str QUESTIONS
                  (Args.mk 0 None None true) ["b"] (λ _, 1%nat) Hzero Hne)).
Defined.

Lemma slice_to_negative {A} (xs : list A) (k : Z) :
  k < 0 → slice_to xs k = take (length xs - Z.to_nat (- k)) xs.
Proof.
  intros Hk. unfold slice_to. rewrite decide_True by done.
  f_equal. lia.
Qed.

(** X7: a negative count in sequential order drops that many records
    from the end of the filtered list: the session keeps the negative
    count and selects all records but the last [-count], so that a run
    with enough input asks exactly these, in order, and none at all when
    [-count] is at least the length of the list. *)
Theorem X7_negative_count_drops_last_records `{StrMethods}
    (dataset : list Question.t) (count : Z)
    (category difficulty : option string) (lines : list string)
    (rnd : nat → nat) (w : World) :
  let args := Args.mk count category difficulty false in
  let filtered := filter_questions dataset category difficulty in
  let self := fresh filtered count false in
  let kept := take (length filtered - Z.to_nat (- count)) filtered in
  let outcome := main_on dataset args (initial_world lines rnd) in
  count < 0 →
  Self.count self = count
  ∧ ExamQuiz.select self w = (Ok kept, w)
  ∧ (filtered ≠ [] → (2 * length kept ≤ length lines)%nat →
     outcome.1 = Ok ()
     ∧ asked (stdout outcome.2) = map Question.question kept
     ∧ ∃ self', session outcome.2 = Some self'
                ∧ Self.total self' = Z.of_nat (length kept)).
Proof.
  intros args filtered self kept outcome Hneg.
  assert (Hsel : ∀ w', ExamQuiz.select self w' = (Ok kept, w')).
  { intros w'. rewrite select_sequential by done.
    simpl. rewrite Z.min_l by lia. by rewrite slice_to_negative. }
  split_and!; [simpl; lia | apply Hsel |].
  intros Hne Hlines. unfold outcome.
  rewrite (main_on_total dataset args kept lines rnd 0%nat)
    by (done || apply Hsel).
  rewrite decide_True by done. cbn [fst snd stdout session].
  split_and!; [done | |].
  - rewrite !asked_app, asked_played by done. simpl. by rewrite app_nil_r.
  - eexists. split; [done|]. rewrite marks_total by done. simpl. lia.
Qed.

Lemma X7_negative_count_drops_last_records_witness :
  ExamQuiz.select (fresh QUESTIONS (-1) false) (initial_world [] (λ _, 0%nat))
  = (Ok (take 1 QUESTIONS), initial_world [] (λ _, 0%nat)).
Proof.
  assert (Hneg : -1 < 0) by lia.
  exact (proj1 (proj2 (@X7_negative_count_drops_last_records ascii_str
                         QUESTIONS (-1) None None [] (λ _, 0%nat)
                         (initial_world [] (λ _, 0%nat)) Hneg))).
Defined.

(** X8: a negative count with [--random] ends the script with
    [ValueError], raised by the sampling, hence exit status 1: the session
    has been constructed and the banner printed, but no question is asked,
    no input line read and no random value drawn. *)
Theorem X8_negative_count_random_raises `{StrMethods}
    (dataset : list Question.t) (count : Z)
    (category difficulty : option string) (lines : list string)
    (rnd : nat → nat) :
  let args := Args.mk count category difficulty true in
  let filtered := filter_questions dataset category difficulty in
  count < 0 →
  filtered ≠ [] →
  main_on dataset args (initial_world lines rnd)
  = (Raise ValueError,
     mkWorld lines banner rnd 0 (Some (fresh filtered count true)))
  ∧ exit_status (main_on dataset args (initial_world lines rnd)).1 = 1.
Proof.
  intros args filtered Hneg Hne.
  assert (Hrun : main_on dataset args (initial_world lines rnd)
                 = (Raise ValueError,
                    mkWorld lines banner rnd 0
                      (Some (fresh filtered count true)))).
  { rewrite main_on_nonempty by done. unfold initial_world.
    apply (run_select_raises _ ValueError lines [] rnd 0%nat 0%nat).
    rewrite select_random by done.
    apply random_sample_spec. simpl. lia. }
  by rewrite Hrun.
Qed.

Lemma X8_negative_count_random_raises_witness :
  exit_status (@main ascii_str (Args.mk (-3) None None true)
                 (initial_world ["b"; ""] (λ _, 0%nat))).1 = 1.
Proof.
  assert (Hneg : -3 < 0) by lia.
  assert (Hne : @filter_questions ascii_str QUESTIONS None None ≠ [])
    by discriminate.
  exact (proj2 (@X8_negative_count_random_raises ascii_str QUESTIONS (-3)
                  None None ["b"; ""] (λ _, 0%nat) Hneg Hne)).
Defined.

(** X9: with [--random] and a count of at least the number of filtered
    questions, the selection is a rearrangement of the whole filtered
    list, whatever the random source yields: with enough input every
    filtered question is asked exactly once. *)
Theorem X9_random_full_count_is_a_permutation `{StrMethods}
    (dataset : list Question.t) (count : Z)
    (category difficulty : option string) (lines : list string)
    (rnd : nat → nat) :
  let args := Args.mk count category difficulty true in
  let filtered := filter_questions dataset category difficulty in
  let self := fresh filtered count true in
  let outcome := main_on dataset args (initial_world lines rnd) in
  Z.of_nat (length filtered) ≤ count →
  ∃ selected d',
    ExamQuiz.select self (mkWorld lines banner rnd 0 (Some self))
    = (Ok selected, mkWorld lines banner rnd d' (Some self))
    ∧ selected ≡ₚ filtered
    ∧ (filtered ≠ [] → (2 * length filtered ≤ length lines)%nat →
       outcome.1 = Ok ()
       ∧ asked (stdout outcome.2) ≡ₚ map Question.question filtered).
Proof.
  intros args filtered self outcome Hfull.
  assert (Hcount : 0 ≤ Args.count args) by (simpl; lia).
  destruct (select_fresh dataset args lines rnd Hcount)
    as (selected & d' & Hsel & Hlen & Hsub).
  cbn [args Args.category Args.difficulty Args.count Args.random]
    in Hsel, Hlen, Hsub.
  fold filtered in Hsel, Hlen, Hsub.
  assert (Hn : length selected = length filtered)
    by (cbn [fresh Self.count] in Hlen; lia).
  assert (Hperm : selected ≡ₚ filtered).
  { apply submseteq_length_Permutation; [done | lia]. }
  exists selected, d'. split_and!; try done.
  intros Hne Hlines. unfold outcome.
  rewrite (main_on_total dataset args selected lines rnd d') by done.
  rewrite decide_True by lia. cbn [fst snd stdout]. split; [done|].
  rewrite !asked_app, asked_played by lia. simpl.
  by rewrite app_nil_r, Hperm.
Qed.

Lemma X9_random_full_count_witness :
  ∃ selected d',
    ExamQuiz.select (fresh QUESTIONS 10 true)
      (mkWorld [] banner (λ _, 1%nat) 0 (Some (fresh QUESTIONS 10 true)))
    = (Ok selected,
       mkWorld [] banner (λ _, 1%nat) d' (Some (fresh QUESTIONS 10 true)))
    ∧ selected ≡ₚ QUESTIONS.
Proof.
  assert (Hfull : Z.of_nat (length (@filter_questions ascii_str QUESTIONS
                                      None None)) ≤ 10)
    by (simpl; lia).
  destruct (@X9_random_full_count_is_a_permutation ascii_str QUESTIONS 10
              None None [] (λ _, 1%nat) Hfull)
    as (selected & d' & Hsel & Hperm & _).
  by exists selected, d'.
Defined.

(** ** What a question shows *)

(** X10: in a run that finds its input (count not negative, filter result
    not empty), the question headers are numbered 1, 2, ..., n in the
    order asked, each against the same denominator n, the clamped count
    [min(count, len)]. *)
Theorem X10_questions_are_numbered_from_one `{StrMethods}
    (dataset : list Question.t) (args : Args.t) (lines : list string)
    (rnd : nat → nat) :
  let filtered :=
    filter_questions dataset (Args.category args) (Args.difficulty args) in
  let n := Z.min (Args.count args) (Z.of_nat (length filtered)) in
  0 ≤ Args.count args →
  filtered ≠ [] →
  (2 * Z.to_nat n ≤ length lines)%nat →
  headers (stdout (main_on dataset args (initial_world lines rnd)).2)
  = (λ k, (k, n)) <$> seqZ 1 n.
Proof.
  intros filtered n Hcount Hne Hlines.
  destruct (select_fresh dataset args lines rnd Hcount)
    as (selected & d' & Hsel & Hlen & _).
  fold filtered in Hlen. cbn [fresh Self.count] in Hlen. fold n in Hlen.
  rewrite (main_on_total dataset args selected lines rnd d') by done.
  rewrite decide_True by lia. cbn [snd stdout].
  unfold headers. rewrite !omap_app.
  fold (headers (played (fresh filtered (Args.count args) (Args.random args))
                   1 selected lines)).
  rewrite headers_played by lia. cbn [fresh Self.count]. fold n.
  rewrite Hlen. simpl. by rewrite app_nil_r.
Qed.

Lemma X10_questions_are_numbered_witness :
  headers (stdout (@main ascii_str (Args.mk 5 None None false)
                     (initial_world ["b"; ""; "c"; ""] (λ _, 0%nat))).2)
  = [(1, 2); (2, 2)].
Proof.
  assert (Hcount : 0 ≤ Args.count (Args.mk 5 None None false))
    by (simpl; lia).
  assert (Hne : @filter_questions ascii_str QUESTIONS None None ≠ [])
    by discriminate.
  refine (@X10_questions_are_numbered_from_one ascii_str QUESTIONS
            (Args.mk 5 None None false) ["b"; ""; "c"; ""] (λ _, 0%nat)
            Hcount Hne _).
  simpl. lia.
Defined.

(** The order of [sorted] on the items of a dict. *)
Lemma string_compare_refl (s : string) : String.compare s s = Eq.
Proof.
  pose proof (String.compare_antisym s s) as Ha.
  by destruct (String.compare s s).
Qed.

Lemma item_le_total (a b : string * string) :
  item_le a b = false → item_le b a = true.
Proof.
  unfold item_le, String.ltb, String.leb.
  rewrite (String.compare_antisym b.1 a.1), (String.compare_antisym b.2 a.2).
  destruct (String.compare a.1 b.1) eqn:Hk; simpl; try done.
  apply String.compare_eq_iff in Hk. rewrite Hk, !String.eqb_refl. simpl.
  by destruct (String.compare a.2 b.2).
Qed.

Lemma insert_item_perm a l : insert_item a l ≡ₚ a :: l.
Proof.
  induction l as [|b l IH]; simpl; [done|].
  destruct (item_le a b); [done|]. by rewrite IH, Permutation_swap.
Qed.

Lemma sorted_items_perm items : sorted_items items ≡ₚ items.
Proof.
  induction items as [|a items IH]; [done|].
  unfold sorted_items in *. simpl. by rewrite insert_item_perm, IH.
Qed.

Lemma insert_item_sorted a l :
  Sorted (λ x y, item_le x y = true) l →
  Sorted (λ x y, item_le x y = true) (insert_item a l).
Proof.
  induction 1 as [|b l Hs IH Hb]; simpl.
  - by repeat constructor.
  - destruct (item_le a b) eqn:Hab.
    + constructor; [by constructor|]. by constructor.
    + constructor; [done|].
      destruct Hb as [|c l Hbc]; simpl.
      * constructor. by apply item_le_total.
      * destruct (item_le a c); constructor; [by apply item_le_total|done].
Qed.

Lemma sorted_items_sorted items :
  Sorted (λ x y, item_le x y = true) (sorted_items items).
Proof.
  induction items as [|a items IH]; [constructor|].
  unfold sorted_items in *. simpl. by apply insert_item_sorted.
Qed.

Lemma item_le_distinct_keys (a b : string * string) :
  item_le a b = true → a.1 ≠ b.1 → String.ltb a.1 b.1 = true.
Proof.
  unfold item_le. destruct (String.ltb a.1 b.1); [done|]. simpl.
  intros [Heq _]%andb_prop Hne. by apply String.eqb_eq in Heq.
Qed.

Lemma sorted_distinct_keys (l : list (string * string)) :
  Sorted (λ x y, item_le x y = true) l →
  NoDup l.*1 →
  Sorted (λ x y, String.ltb x.1 y.1 = true) l.
Proof.
  induction 1 as [|a l Hs IH Ha]; intros Hnd; [constructor|].
  apply NoDup_cons in Hnd as [Hin Hnd]. constructor; [by apply IH|].
  destruct Ha as [|b l Hab]; constructor.
  apply item_le_distinct_keys; [done|].
  intros Heq. apply Hin. rewrite Heq. simpl. apply list_elem_of_here.
Qed.

Lemma shown_options_map (l : list (string * string)) :
  shown_options (map (λ item, QOption item.1 item.2) l) = l.
Proof.
  induction l as [|[k v] l IH]; [done|]. simpl. by rewrite IH.
Qed.

Lemma shown_options_asking `{StrMethods} self num q :
  shown_options (asking self num q) = sorted_items (Question.options q).
Proof.
  unfold asking, shown_options. rewrite !omap_app.
  fold (shown_options (map (λ item : string * string, QOption item.1 item.2)
                         (sorted_items (Question.options q)))).
  rewrite shown_options_map. simpl. by rewrite app_nil_r.
Qed.

(** X11: whatever standard input holds, [ask_question] prints every
    option of the record exactly once, in ascending order of the pairs
    (key, text); when the keys are pairwise different, as the keys of a
    dict are, they appear in strictly ascending order. *)
Theorem X11_options_shown_in_key_order `{StrMethods}
    (num : Z) (q : Question.t) (self : Self.t) (lines : list string)
    (rnd : nat → nat) (d : nat) :
  let shown :=
    shown_options
      (stdout (ExamQuiz.ask_question num q
                 (mkWorld lines [] rnd d (Some self))).2) in
  shown ≡ₚ Question.options q
  ∧ Sorted (λ x y, item_le x y = true) shown
  ∧ (NoDup (Question.options q).*1 →
     Sorted (λ x y, String.ltb x.1 y.1 = true) shown).
Proof.
  intros shown.
  assert (Hshown : shown = sorted_items (Question.options q)).
  { unfold shown. destruct lines as [|line [|ack rest]].
    - rewrite ask_question_no_answer. cbn [snd stdout app].
      apply shown_options_asking.
    - rewrite ask_question_no_ack. cbn [snd stdout app].
      unfold shown_options. rewrite omap_app.
      fold (shown_options (asking self num q)).
      rewrite shown_options_asking.
      unfold feedback. simpl. destruct (decide _); simpl; by rewrite app_nil_r.
    - rewrite ask_question_answered, transcript_split. cbn [snd stdout app].
      unfold shown_options. rewrite omap_app.
      fold (shown_options (asking self num q)).
      rewrite shown_options_asking.
      unfold feedback. simpl. destruct (decide _); simpl; by rewrite app_nil_r. }
  rewrite Hshown. split_and!.
  - apply sorted_items_perm.
  - apply sorted_items_sorted.
  - intros Hnd. apply sorted_distinct_keys; [apply sorted_items_sorted|].
    by rewrite sorted_items_perm.
Qed.

(** ** More on the filter *)

(** X12: on ASCII text the category criterion is insensitive to case:
    two criteria that differ in the case of their letters only select the
    same records of any list, under any difficulty criterion. *)
Theorem X12_category_criterion_ignores_case
    (questions : list Question.t) (c1 c2 : string)
    (difficulty : option string) :
  AsciiStr.lower c1 = AsciiStr.lower c2 →
  @filter_questions ascii_str questions (Some c1) difficulty
  = @filter_questions ascii_str questions (Some c2) difficulty.
Proof.
  intros Hl. unfold filter_questions. cbn [str_lower ascii_str].
  assert (Ht : truthy c1 = truthy c2).
  { unfold AsciiStr.lower in Hl. by destruct c1, c2. }
  by rewrite Ht, Hl.
Qed.

Lemma X12_category_criterion_ignores_case_witness :
  @filter_questions ascii_str QUESTIONS (Some "vlan") None
  = @filter_questions ascii_str QUESTIONS (Some "VLan") None.
Proof.
  assert (Hl : AsciiStr.lower "vlan" = AsciiStr.lower "VLan")
    by reflexivity.
  exact (X12_category_criterion_ignores_case QUESTIONS "vlan" "VLan" None Hl).
Defined.

(** X13: the two criteria act independently and compose: filtering by
    both is filtering by the category and then by the difficulty, or the
    other way round; filtering a filtered list again by the same criteria
    changes nothing; the filter of a concatenation is the concatenation
    of the filters, so that adding records to the dataset never changes
    which of the others pass; and without criteria the list passes
    unchanged. *)
Theorem X13_filter_composes `{StrMethods}
    (questions more : list Question.t) (category difficulty : option string) :
  filter_questions questions category difficulty
  = filter_questions (filter_questions questions category None) None difficulty
  ∧ filter_questions questions category difficulty
    = filter_questions (filter_questions questions None difficulty)
        category None
  ∧ filter_questions (filter_questions questions category difficulty)
      category difficulty
    = filter_questions questions category difficulty
  ∧ filter_questions (questions ++ more) category difficulty
    = filter_questions questions category difficulty
      ++ filter_questions more category difficulty
  ∧ filter_questions questions None None = questions.
Proof.
  split_and!; [rewrite !filter_questions_spec.. | reflexivity].
  - rewrite list_filter_filter. apply list_filter_iff. intros q.
    unfold meets_nonempty. split.
    + intros [Hc Hd]. split_and!; try done; intros ? [=].
    + intros [[_ Hd] [Hc _]]. done.
  - rewrite list_filter_filter. apply list_filter_iff. intros q.
    unfold meets_nonempty. split.
    + intros [Hc Hd]. split_and!; try done; intros ? [=].
    + intros [[Hc _] [_ Hd]]. done.
  - by rewrite list_filter_filter_l.
  - apply filter_app.
Qed.

(** ** Answer keys and normal forms *)

Module AsciiNormalForm.
Import AsciiStr.

Lemma upper_char_idem c : upper_char (upper_char c) = upper_char c.
Proof. by destruct c as [[] [] [] [] [] [] [] []]. Qed.

Lemma upper_idem s : upper (upper s) = upper s.
Proof.
  unfold upper. induction s as [|c s IH]; cbn [map_chars]; [done|].
  by rewrite upper_char_idem, IH.
Qed.

Lemma rstrip_cons c s :
  rstrip (String c s)
  = match rstrip s with
    | EmptyString => if isspace c then EmptyString else String c EmptyString
    | String c' r => String c (String c' r)
    end.
Proof. simpl. by destruct (rstrip s). Qed.

Lemma rstrip_idem s : rstrip (rstrip s) = rstrip s.
Proof.
  induction s as [|c s IH]; [done|]. rewrite rstrip_cons.
  destruct (rstrip s) as [|c' r] eqn:Hr.
  - destruct (isspace c) eqn:Hc; [done|]. rewrite rstrip_cons. simpl.
    by rewrite Hc.
  - rewrite rstrip_cons. by rewrite IH.
Qed.

Lemma lstrip_head s :
  lstrip s = EmptyString
  ∨ ∃ c t, lstrip s = String c t ∧ isspace c = false.
Proof.
  induction s as [|c s IH]; [by left|]. cbn [lstrip].
  destruct (isspace c) eqn:Hc; [done|]. right. eauto.
Qed.

Lemma rstrip_head c t :
  isspace c = false → ∃ r, rstrip (String c t) = String c r.
Proof.
  intros Hc. rewrite rstrip_cons. destruct (rstrip t); rewrite ?Hc; eauto.
Qed.

Lemma strip_idem s : strip (strip s) = strip s.
Proof.
  unfold strip. destruct (lstrip_head s) as [->|(c & t & -> & Hc)]; [done|].
  destruct (rstrip_head c t Hc) as [r Hr]. rewrite Hr.
  cbn [lstrip]. rewrite Hc, <- Hr. apply rstrip_idem.
Qed.

(** Trimming and upper-casing a second time changes nothing. *)
Lemma normalize_idem line :
  @normalize ascii_str (@normalize ascii_str line) = @normalize ascii_str line.
Proof.
  unfold normalize. cbn [str_upper str_strip ascii_str].
  by rewrite <- AsciiFacts.upper_strip, strip_idem, upper_idem.
Qed.

End AsciiNormalForm.

(** ** The verdict and the score *)

Lemma exact_verdict_monotone (score1 score2 total : Z) :
  score1 ≤ score2 →
  rank (exact_verdict score1 total) ≤ rank (exact_verdict score2 total).
Proof.
  intros Hs. unfold exact_verdict.
  repeat destruct (decide _); simpl; lia.
Qed.

Lemma report_ends_with_exact_verdict (self : Self.t) :
  0 ≤ Self.score self ≤ Self.total self →
  Self.total self ≤ 500 →
  ∃ pre,
    report self
    = pre ++ [VerdictLine (exact_verdict (Self.score self) (Self.total self))].
Proof.
  intros Hs Ht. unfold report.
  eexists [_; _; _; _; _]. simpl. repeat f_equal.
  rewrite <- verdict_exact by done. unfold percentage_of.
  destruct (decide (Self.total self > 0)), (decide (Self.total self = 0));
    try lia; reflexivity.
Qed.

(** X15: for sessions of up to 500 questions the verdict never gets
    worse with a better score: of two sessions with the same total, the
    one with at least as many right answers is shown a verdict that is at
    least as good, the verdict being the last line [show_results]
    prints. *)
Theorem X15_verdict_is_monotone_in_score (self1 self2 : Self.t)
    (i : list string) (o : list Output) (e : nat → nat) (d : nat) :
  Self.total self1 = Self.total self2 →
  Self.total self2 ≤ 500 →
  0 ≤ Self.score self1 ≤ Self.score self2 →
  Self.score self2 ≤ Self.total self2 →
  ∃ pre1 pre2 v1 v2,
    stdout (ExamQuiz.show_results (mkWorld i o e d (Some self1))).2
    = pre1 ++ [VerdictLine v1]
    ∧ stdout (ExamQuiz.show_results (mkWorld i o e d (Some self2))).2
      = pre2 ++ [VerdictLine v2]
    ∧ rank v1 ≤ rank v2.
Proof.
  intros Ht Hmax Hs Hs2. rewrite !show_results_spec. cbn [snd stdout].
  destruct (report_ends_with_exact_verdict self1) as [pre1 ->]; [lia..|].
  destruct (report_ends_with_exact_verdict self2) as [pre2 ->]; [lia..|].
  exists (o ++ pre1), (o ++ pre2). eexists _, _.
  rewrite !app_assoc. split_and!; [done..|].
  rewrite Ht. apply exact_verdict_monotone. lia.
Qed.

Lemma X15_verdict_is_monotone_witness :
  ∃ pre1 pre2 v1 v2,
    stdout (ExamQuiz.show_results
              (mkWorld [] [] (λ _, 0%nat) 0 (Some (Self.mk [] 10 false 6 10)))).2
    = pre1 ++ [VerdictLine v1]
    ∧ stdout (ExamQuiz.show_results
                (mkWorld [] [] (λ _, 0%nat) 0
                   (Some (Self.mk [] 10 false 7 10)))).2
      = pre2 ++ [VerdictLine v2]
    ∧ rank v1 ≤ rank v2.
Proof.
  refine (X15_verdict_is_monotone_in_score (Self.mk [] 10 false 6 10)
            (Self.mk [] 10 false 7 10) [] [] (λ _, 0%nat) 0%nat _ _ _ _);
    simpl; lia.
Defined.

(** ** The counters *)

(** The answers read by the loop: one for each selected question that
    still finds an input line, questions taking two lines each. *)
Lemma marks_total_any `{StrMethods} (selected : list Question.t) :
  ∀ lines self,
    Self.total (marks selected lines self)
    = Self.total self
      + Z.of_nat (length selected `min` Nat.div2 (S (length lines))).
Proof.
  induction selected as [|q selected IH]; intros lines self.
  - simpl. lia.
  - destruct lines as [|line [|ack rest]]; cbn [marks].
    + simpl. lia.
    + pose proof (mark_counters q line self) as (-> & _).
      simpl. destruct (length selected); simpl; lia.
    + rewrite IH. pose proof (mark_counters q line self) as (-> & _).
      simpl length. cbn [Nat.div2 Nat.min].
      rewrite Nat2Z.inj_succ. lia.
Qed.

(** No more answers are right than are read. *)
Lemma right_answers_read `{StrMethods} (selected : list Question.t) :
  ∀ lines,
    0 ≤ right_answers selected lines
    ≤ Z.of_nat (length selected `min` Nat.div2 (S (length lines))).
Proof.
  induction selected as [|q selected IH]; intros lines; [simpl; lia|].
  destruct lines as [|line [|ack rest]]; cbn [right_answers tail].
  - simpl. lia.
  - specialize (IH []). destruct selected; simpl in *;
      destruct (decide _); lia.
  - specialize (IH rest).
    change (Nat.div2 (S (length (line :: ack :: rest))))
      with (S (Nat.div2 (S (length rest)))).
    change (length (q :: selected)) with (S (length selected)).
    rewrite <- Nat.succ_min_distr, Nat2Z.inj_succ.
    destruct (decide _); lia.
Qed.

(** C8: throughout every session [0 <= score <= total].  Both counters
    are 0 when the session is constructed.  One question leaves the
    session as it is when no answer line can be read, and otherwise adds
    exactly one to the total, as soon as the answer line is read, and one
    to the score exactly when the normalized line is the answer key; it
    returns when the acknowledgement line is there too and raises
    [EOFError] otherwise.  Over the loop the total grows by the number of
    answers read and the score by the number of right ones, and a run of
    the script ends with these counters; neither counter is ever lowered
    and [0 <= score <= total] holds on every outcome. *)
Theorem C8_counters_invariant `{StrMethods} :
  (∀ questions count random_order (w : World),
     ∃ self,
       session (ExamQuiz.__init__ questions count random_order w).2 = Some self
       ∧ Self.score self = 0 ∧ Self.total self = 0)
  ∧ (∀ num q (w : World) self,
       session w = Some self →
       ∃ self',
         session (ExamQuiz.ask_question num q w).2 = Some self'
         ∧ (stdin w = [] → self' = self)
         ∧ (∀ line rest, stdin w = line :: rest →
            Self.total self' = Self.total self + 1
            ∧ Self.score self'
              = Self.score self
                + (if decide (str_upper (str_strip line) = Question.answer q)
                   then 1 else 0))
         ∧ (ExamQuiz.ask_question num q w).1
           = (if decide (2 ≤ length (stdin w))%nat
              then Ok () else Raise EOFError)
         ∧ Self.total self ≤ Self.total self' ≤ Self.total self + 1
         ∧ Self.score self ≤ Self.score self' ≤ Self.score self + 1
         ∧ Self.score self' - Self.score self
           ≤ Self.total self' - Self.total self
         ∧ (counters_ok self → counters_ok self'))
  ∧ (∀ (selected : list Question.t) (start : Z) self lines out rnd d,
       let loop :=
         for_each (enumerate selected start)
           (λ iq, ExamQuiz.ask_question iq.1 iq.2)
           (mkWorld lines out rnd d (Some self)) in
       ∃ self',
         session loop.2 = Some self'
         ∧ loop.1 = (if decide (2 * length selected ≤ length lines)%nat
                     then Ok () else Raise EOFError)
         ∧ Self.total self'
           = Self.total self
             + Z.of_nat (length selected `min` Nat.div2 (S (length lines)))
         ∧ Self.score self'
           = Self.score self + right_answers selected lines
         ∧ Self.score self' - Self.score self
           ≤ Self.total self' - Self.total self
         ∧ (counters_ok self → counters_ok self'))
  ∧ (∀ (selected : list (Z * Question.t)) (w : World) self,
       session w = Some self →
       counters_ok self →
       ∃ self',
         session (for_each selected
                    (λ iq, ExamQuiz.ask_question iq.1 iq.2) w).2 = Some self'
         ∧ counters_ok self'
         ∧ Self.total self ≤ Self.total self'
         ∧ Self.score self ≤ Self.score self')
  ∧ (∀ dataset args lines rnd,
       match session (main_on dataset args (initial_world lines rnd)).2 with
       | Some self => counters_ok self
       | None => True
       end)
  ∧ (∀ dataset args lines rnd,
       let filtered :=
         filter_questions dataset (Args.category args)
           (Args.difficulty args) in
       let n := Z.min (Args.count args) (Z.of_nat (length filtered)) in
       0 ≤ Args.count args →
       filtered ≠ [] →
       ∃ self',
         session (main_on dataset args (initial_world lines rnd)).2
         = Some self'
         ∧ Self.total self'
           = Z.of_nat (Z.to_nat n `min` Nat.div2 (S (length lines)))
         ∧ 0 ≤ Self.score self' ≤ Self.total self').
Proof.
  split_and!.
  - intros questions count random_order w. rewrite init_spec. simpl. eauto.
  - intros num q [i o e d s] self Hs. simpl in Hs. subst s.
    destruct i as [|line [|ack rest]].
    + exists self. rewrite ask_question_no_answer. cbn [fst snd session stdin].
      rewrite decide_False by (simpl; lia).
      split_and!; try done; try lia; by intros ? ? [=].
    + exists (mark q line self). rewrite ask_question_no_ack.
      cbn [fst snd session stdin]. rewrite decide_False by (simpl; lia).
      pose proof (mark_counters q line self) as (Mt & Ms & _).
      pose proof (mark_score q line self) as Msc. unfold normalize in Msc.
      unfold counters_ok.
      split_and!; try done; try lia; by intros ? ? [= <- <-].
    + exists (mark q line self). rewrite ask_question_answered.
      cbn [fst snd session stdin]. rewrite decide_True by (simpl; lia).
      pose proof (mark_counters q line self) as (Mt & Ms & _).
      pose proof (mark_score q line self) as Msc. unfold normalize in Msc.
      unfold counters_ok.
      split_and!; try done; try lia; by intros ? ? [= <- <-].
  - intros selected start self lines out rnd d loop.
    exists (marks selected lines self). unfold loop.
    rewrite ask_all_total. cbn [fst snd session].
    pose proof (marks_total_any selected lines self) as Ht.
    pose proof (marks_score selected lines self) as Hsc.
    pose proof (right_answers_read selected lines) as Hr.
    unfold counters_ok. split_and!; try done; lia.
  - intros selected w self Hs Hok.
    destruct (ask_all_counters selected w self Hs)
      as (self' & Hrun & Ht & Hsc & Hd & _).
    exists self'. unfold counters_ok in *. split_and!; try done; lia.
  - intros dataset args lines rnd.
    destruct (filter_questions dataset (Args.category args)
                (Args.difficulty args)) as [|q l] eqn:Hf.
    + by rewrite main_on_empty.
    + rewrite main_on_nonempty by (rewrite Hf; done).
      match goal with |- context [ExamQuiz.run ?w] =>
        destruct (run_counters w _ eq_refl) as (self' & -> & Ht & Hs & Hd)
      end.
      unfold counters_ok. simpl in Ht, Hs, Hd. lia.
  - intros dataset args lines rnd filtered n Hcount Hne.
    destruct (select_fresh dataset args lines rnd Hcount)
      as (selected & d' & Hsel & Hlen & _).
    fold filtered in Hsel, Hlen. cbn [fresh Self.count] in Hlen.
    fold n in Hlen.
    exists (marks selected lines
              (fresh filtered (Args.count args) (Args.random args))).
    rewrite (main_on_total dataset args selected lines rnd d') by done.
    fold filtered.
    pose proof (marks_total_any selected lines
                  (fresh filtered (Args.count args) (Args.random args))) as Ht.
    pose proof (marks_score selected lines
                  (fresh filtered (Args.count args) (Args.random args))) as Hsc.
    pose proof (right_answers_read selected lines) as Hr.
    replace (Z.to_nat n) with (length selected) by lia.
    cbn [fresh Self.total Self.score] in Ht, Hsc.
    destruct (decide _); cbn [snd session]; split_and!; try done; lia.
Qed.

(** ** Answer keys that can be matched *)

Lemma typable_upper_char c :
  typable_char c = true → typable_char (AsciiStr.upper_char c) = true.
Proof. by destruct c as [[] [] [] [] [] [] [] []]. Qed.

Lemma typable_upper s : typable s → typable (AsciiStr.upper s).
Proof.
  unfold AsciiStr.upper.
  induction s as [|c s IH]; cbn [AsciiStr.map_chars typable]; [done|].
  intros [Hc Hs]. split; [by apply typable_upper_char | by apply IH].
Qed.

Lemma typable_lstrip s : typable s → typable (AsciiStr.lstrip s).
Proof.
  induction s as [|c s IH]; [done|]. cbn [AsciiStr.lstrip].
  intros Hs. destruct (AsciiStr.isspace c); [|done]. apply IH, Hs.
Qed.

Lemma typable_rstrip s : typable s → typable (AsciiStr.rstrip s).
Proof.
  induction s as [|c s IH]; [done|].
  rewrite AsciiNormalForm.rstrip_cons. intros [Hc Hs].
  specialize (IH Hs). destruct (AsciiStr.rstrip s).
  - by destruct (AsciiStr.isspace c).
  - done.
Qed.

(** The normal form of a line that can be typed can be typed. *)
Lemma typable_normalize line :
  typable line → typable (@normalize ascii_str line).
Proof.
  intros Hl. unfold normalize. cbn [str_upper str_strip ascii_str].
  unfold AsciiStr.strip. by apply typable_upper, typable_rstrip, typable_lstrip.
Qed.

(** X14: among the ASCII lines that [input] can return (no line break
    inside), some line answers a question right exactly when the answer
    key is such a line itself and is its own normal form, that is
    upper-case and without surrounding whitespace: only the input is
    normalized, so a record whose key is stored in lower case or with
    surrounding whitespace is marked wrong on every such answer. *)
Theorem X14_winnable_iff_key_is_normalized
    (num : Z) (q : Question.t) (self : Self.t) (rest : list string)
    (out : list Output) (rnd : nat → nat) (d : nat) :
  (∃ line self',
     typable line
     ∧ session (@ExamQuiz.ask_question ascii_str num q
                  (mkWorld (line :: rest) out rnd d (Some self))).2
       = Some self'
     ∧ Self.score self' = Self.score self + 1)
  ↔ typable (Question.answer q)
    ∧ @normalize ascii_str (Question.answer q) = Question.answer q.
Proof.
  assert (Hstep : ∀ line,
             session (@ExamQuiz.ask_question ascii_str num q
                        (mkWorld (line :: rest) out rnd d (Some self))).2
             = Some (@mark ascii_str q line self)).
  { intros line.
    by rewrite (@ask_question_session ascii_str num q
                  (mkWorld (line :: rest) out rnd d (Some self)) self). }
  split.
  - intros (line & self' & Htyp & Hs & Hscore).
    rewrite Hstep in Hs. injection Hs as <-.
    rewrite mark_score in Hscore.
    destruct (decide (@normalize ascii_str line = Question.answer q))
      as [Heq|]; [|lia].
    rewrite <- Heq. split.
    + by apply typable_normalize.
    + apply AsciiNormalForm.normalize_idem.
  - intros [Htyp Hnorm]. exists (Question.answer q). eexists.
    split_and!; [done | apply Hstep |].
    rewrite mark_score. by rewrite decide_True.
Qed.
